(** * The question-answering engine of the TDS virtual teaching assistant

    A shallow embedding of [src/qa_engine.py] (class [QAEngine]) and the
    properties its specification states about it.

    Conventions of the embedding.

    - A Python [str] is a [string]: a sequence of characters, each one a code
      point in U+0000..U+00FF. The character classes of [re] ([\s], [\w]) and
      [str.lower] are the ones CPython uses for those code points.
    - A Python number is an [int] or a [float] ([PyNum.number]); floats are
      IEEE 754 binary64 values with the kernel's primitive operations.
    - A corpus record (a [dict] read from JSON) is a finite map from field
      names to strings; a field may be absent or empty.
    - A statement that may raise returns a [result]; the only such statement of
      the engine is the subscript [d[k]] of a dict.
    - [fuzz.partial_ratio] belongs to the third-party package [fuzzywuzzy]; it
      is a variable of the development, as is the order in which
      [list(set(...))] enumerates a set (it changes with the hash seed).
    - The formulas of the specification are over the rational numbers
      ([Spec.post_final_score]); a score of the engine is compared with them
      through its exact value ([Spec.value]). *)

From Stdlib Require Import ZArith NArith Ascii String Lia.
From Stdlib Require Floats Uint63.
From Stdlib Require QArith Qabs Qminmax.
From stdpp Require Import gmap strings list sorting.

(** ** Python strings *)

Module PyStr.

Definition ord (c : ascii) : N := N_of_ascii c.

Definition between (lo hi : N) (c : ascii) : bool :=
  ((lo <=? ord c) && (ord c <=? hi))%N.

(** [str.isspace] on one character, which is also the class [\s] of a
    [str] pattern: TAB..CR, FS..US, SPACE, NEL and NBSP. *)
Definition is_space (c : ascii) : bool :=
  between 9 13 c || between 28 32 c || (ord c =? 133)%N || (ord c =? 160)%N.

(** The class [\w] of a [str] pattern: alphanumeric characters and the
    underscore. *)
Definition is_word (c : ascii) : bool :=
  between 48 57 c || between 65 90 c || (ord c =? 95)%N || between 97 122 c
  || (ord c =? 170)%N || between 178 179 c || (ord c =? 181)%N
  || between 185 186 c || between 188 190 c
  || between 192 214 c || between 216 246 c || between 248 255 c.

(** [str.lower], character by character: A..Z and the upper-case letters
    U+00C0..U+00DE (the sign U+00D7 apart) move 32 places up. *)
Definition lower_char (c : ascii) : ascii :=
  if between 65 90 c || (between 192 222 c && negb (ord c =? 215)%N)
  then ascii_of_N (ord c + 32) else c.

Fixpoint lower (s : string) : string :=
  match s with
  | EmptyString => EmptyString
  | String c s' => String (lower_char c) (lower s')
  end.

(** Truth value of a string: [not s] holds of the empty string only. *)
Definition truthy (s : string) : bool :=
  match s with EmptyString => false | String _ _ => true end.

(** [re.sub(r'\s+', ' ', s)]: every maximal run of white space becomes one
    space. [in_run] tells that the previous character was white space. *)
Fixpoint sub_spaces_from (in_run : bool) (s : string) : string :=
  match s with
  | EmptyString => EmptyString
  | String c s' =>
      if is_space c
      then (if in_run then sub_spaces_from true s'
            else String " " (sub_spaces_from true s'))
      else String c (sub_spaces_from false s')
  end.

Definition sub_spaces (s : string) : string := sub_spaces_from false s.

(** [str.lstrip], [str.rstrip] and [str.strip] without argument. *)
Fixpoint lstrip (s : string) : string :=
  match s with
  | EmptyString => EmptyString
  | String c s' => if is_space c then lstrip s' else s
  end.

Fixpoint rstrip (s : string) : string :=
  match s with
  | EmptyString => EmptyString
  | String c s' =>
      match rstrip s' with
      | EmptyString => if is_space c then EmptyString else String c EmptyString
      | r => String c r
      end
  end.

Definition strip (s : string) : string := lstrip (rstrip s).

(** [re.sub(r'[^\w\s\-\.\?\!]', '', s)]: the characters outside the class
    are deleted. *)
Definition is_kept (c : ascii) : bool :=
  is_word c || is_space c
  || Ascii.eqb c "-" || Ascii.eqb c "." || Ascii.eqb c "?" || Ascii.eqb c "!".

Fixpoint sub_special (s : string) : string :=
  match s with
  | EmptyString => EmptyString
  | String c s' => if is_kept c then String c (sub_special s') else sub_special s'
  end.

(** [k in s] on strings: [k] occurs in [s] as a contiguous substring. *)
Fixpoint contains (s k : string) : bool :=
  String.prefix k s
  || match s with EmptyString => false | String _ s' => contains s' k end.

(** [re.findall(r'\b\w{4,}\b', s)]. A match can only start where a run of
    word characters starts, the greedy [\w{4,}] then takes the whole run,
    and the end of the run is a word boundary: the matches are the maximal
    runs of word characters of length at least 4, from left to right.
    [word_runs] lists all maximal runs; [cur] is the run being read. *)
Fixpoint word_runs_from (cur : string) (s : string) : list string :=
  match s with
  | EmptyString => if truthy cur then [cur] else []
  | String c s' =>
      if is_word c then word_runs_from (cur +:+ String c EmptyString) s'
      else (if truthy cur then [cur] else []) ++ word_runs_from EmptyString s'
  end.

Definition word_runs (s : string) : list string := word_runs_from EmptyString s.

Definition findall_words4 (s : string) : list string :=
  filter (λ w, 4 ≤ String.length w) (word_runs s).

(** The slice [s[:n]]. *)
Fixpoint slice_to (n : nat) (s : string) : string :=
  match n, s with
  | S n', String c s' => String c (slice_to n' s')
  | _, _ => EmptyString
  end.

(** [s.split('.')[0]]: the part of [s] before its first full stop. *)
Fixpoint before_dot (s : string) : string :=
  match s with
  | EmptyString => EmptyString
  | String c s' => if Ascii.eqb c "." then EmptyString else String c (before_dot s')
  end.

(** [sep.join(parts)]. *)
Fixpoint join (sep : string) (parts : list string) : string :=
  match parts with
  | [] => EmptyString
  | [p] => p
  | p :: rest => p +:+ sep +:+ join sep rest
  end.

End PyStr.

Import PyStr.

(** ** The text normalizer and the keyword extractor *)

(** [QAEngine.preprocess_text]. *)
Definition preprocess_text (text : string) : string :=
  if negb (truthy text) then EmptyString
  else
    let text := lower text in
    let text := strip (sub_spaces text) in
    let text := sub_special text in
    text.

(** The vocabulary of [extract_keywords]. *)
Definition tech_terms : list string :=
  [ "python"; "pandas"; "numpy"; "matplotlib"; "seaborn"; "sklearn";
    "jupyter"; "notebook"; "dataframe"; "csv"; "api"; "sql"; "database";
    "visualization"; "plot"; "chart"; "regression"; "classification";
    "machine learning"; "ml"; "data science"; "statistics"; "analysis" ].

(** [QAEngine.extract_keywords], up to its last line: the vocabulary terms
    found in the lower-cased text, then the first ten words of four
    characters or more (with repetitions). *)
Definition keywords_found (text : string) : list string :=
  let keywords := [] in
  let text_lower := lower text in
  let keywords := keywords ++ filter (λ term, contains text_lower term) tech_terms in
  let words := findall_words4 text_lower in
  let keywords := keywords ++ take 10 words in
  keywords.

(** ** Python numbers *)

Module PyNum.
Import PrimFloat.

Inductive number : Type :=
| PyInt (z : Z)
| PyFloat (f : float).

(** The literal [0.8]: the double nearest to 4/5. *)
Definition f0_8 : float := 0x1.999999999999ap-1%float.

(** [float(z)], exact for the integers of magnitude below [2^53]. *)
Definition float_of_int (z : Z) : float :=
  if (0 <=? z)%Z then of_uint63 (Uint63.of_Z z)
  else opp (of_uint63 (Uint63.of_Z (- z))).

Definition to_float (n : number) : float :=
  match n with PyInt z => float_of_int z | PyFloat f => f end.

(** [a * b] and [a + b]: integer arithmetic on two ints, otherwise both
    operands are converted to float. *)
Definition mul (a b : number) : number :=
  match a, b with
  | PyInt x, PyInt y => PyInt (x * y)
  | _, _ => PyFloat (to_float a * to_float b)
  end.

Definition add (a b : number) : number :=
  match a, b with
  | PyInt x, PyInt y => PyInt (x + y)
  | _, _ => PyFloat (to_float a + to_float b)
  end.

(** A number is finite unless it is a float NaN or infinity. *)
Definition is_finite (n : number) : bool :=
  match n with
  | PyInt _ => true
  | PyFloat f => negb (is_nan f || is_infinity f)
  end.

(** The exact value of a finite number, counted in units of [2^-1074], the
    smallest positive double: every int and every finite double is a whole
    number of units. *)
Definition units : Z := 2 ^ 1074.

Definition scaled_float (f : float) : Z :=
  match FloatOps.Prim2SF f with
  | SpecFloat.S754_finite s m e =>
      let v := (Z.pos m * 2 ^ (e + 1074))%Z in
      if s then (- v)%Z else v
  | _ => 0%Z
  end.

Definition scaled (n : number) : Z :=
  match n with
  | PyInt z => (z * units)%Z
  | PyFloat f => scaled_float f
  end.

(** Comparisons. Python compares an int with a float by their exact values;
    two finite floats are compared by the processor, which is again the
    order of their exact values ([float_order_agrees] checks it on the float
    scores of the engine). *)
Definition lt (a b : number) : bool := (scaled a <? scaled b)%Z.
Definition gt (a b : number) : bool := lt b a.
Definition ge (a b : number) : bool := (scaled b <=? scaled a)%Z.

(** [max(a, b)]: the first of the largest arguments. *)
Definition max (a b : number) : number := if gt b a then b else a.

(** [min(a, b)] on two ints. *)
Definition min_int (a b : Z) : Z := if (b <? a)%Z then b else a.

(** [sum(l)] on ints. *)
Definition sum (l : list Z) : Z := foldl Z.add 0%Z l.

(** The order of exact values, as propositions. *)
Definition le (a b : number) : Prop := (scaled a ≤ scaled b)%Z.
Definition value_eq (a b : number) : Prop := scaled a = scaled b.

End PyNum.

Import PyNum (number, PyInt, PyFloat).

(** ** [list.sort(key=..., reverse=True)] *)

(** The sort is stable and descending: among elements of equal key the
    original order is kept. Its result is determined by these properties
    ([list_sort_reverse_unique] below), so the insertion sort here computes
    what the built-in does. *)
Section ListSort.
Context {A : Type} (key : A → number).

Fixpoint insert_reverse (x : A) (l : list A) : list A :=
  match l with
  | [] => [x]
  | y :: l' =>
      if PyNum.gt (key y) (key x) then y :: insert_reverse x l'
      else x :: y :: l'
  end.

Fixpoint list_sort_reverse (l : list A) : list A :=
  match l with
  | [] => []
  | x :: l' => insert_reverse x (list_sort_reverse l')
  end.
End ListSort.

(** ** Exceptions *)

Inductive exn : Type :=
| KeyError (k : string).

Inductive result (A : Type) : Type :=
| Ok (a : A)
| Raise (e : exn).
Arguments Ok {A} a.
Arguments Raise {A} e.

Global Instance result_ret : MRet result := λ A a, Ok a.

Global Instance result_bind : MBind result := λ A B k r,
  match r with
  | Ok a => k a
  | Raise e => Raise e
  end.

(** A [for] loop whose body may raise; [acc] holds the variables the body
    updates. *)
Fixpoint for_each {A S : Type} (l : list A) (body : S → A → result S) (acc : S)
  : result S :=
  match l with
  | [] => Ok acc
  | x :: l' => acc' ← body acc x; for_each l' body acc'
  end.

(** ** Dicts *)

(** A corpus record: field names to strings. *)
Abbreviation record := (gmap string string).

(** [d.get(k, default)], [d.get(k)] and [d[k]]. *)
Definition get_or (d : record) (k dflt : string) : string :=
  default dflt (d !! k).

Definition get (d : record) (k : string) : option string := d !! k.

Definition getitem (d : record) (k : string) : result string :=
  match d !! k with
  | Some v => Ok v
  | None => Raise (KeyError k)
  end.

(** Truth value of [d.get(k)]: [None] and the empty string are false. *)
Definition truthy_opt (o : option string) : bool :=
  match o with
  | Some s => truthy s
  | None => false
  end.

(** Truth value of a list. *)
Definition nonempty {A : Type} (l : list A) : bool :=
  match l with [] => false | _ :: _ => true end.

(** ** The engine *)

(** The two corpora held by a [QAEngine] object. *)
Record QAEngine : Type := {
  discourse_posts : list record;
  course_content : list record
}.

(** The entries of [similar_posts] and [relevant_content]. *)
Record post_match : Type := {
  pm_post : record;
  pm_score : number;
  pm_title_score : Z;
  pm_content_score : Z;
  pm_keyword_matches : Z
}.

Record content_match : Type := {
  cm_content : record;
  cm_score : number;
  cm_keyword_matches : Z
}.

(** The entries of [links], and the dict returned by [get_answer]. *)
Record link : Type := {
  url : string;
  text : string
}.

Record payload : Type := {
  answer : string;
  links : list link
}.

(** The dict returned by [get_stats]. *)
Record stats : Type := {
  stats_discourse_posts : Z;
  stats_course_content_items : Z;
  stats_total_items : Z;
  stats_last_updated : string
}.

Definition newline : string := String (ascii_of_nat 10) EmptyString.

(** The bullet of the answer lines (U+2022), as the bytes of the source
    file; the engine never inspects it. *)
Definition bullet : string := "•".

Section Engine.

(** [fuzz.partial_ratio] of [fuzzywuzzy]: an integer similarity of two
    strings on the scale 0..100. *)
Variable partial_ratio : string → string → Z.

(** [list(set(l))]: the distinct elements of [l], in the order in which
    the interpreter enumerates the set. *)
Variable list_set : list string → list string.

(** [QAEngine.extract_keywords]. *)
Definition extract_keywords (text : string) : list string :=
  list_set (keywords_found text).

(** One turn of the loop of [find_similar_posts]: the entry built for
    [post], which the loop keeps when its score reaches the threshold. *)
Definition post_entry (question_processed question : string) (post : record)
  : post_match :=
  let post_text := get_or post "title" EmptyString +:+ " "
                   +:+ get_or post "content" EmptyString in
  let post_text_processed := preprocess_text post_text in
  let title_score :=
    partial_ratio question_processed
      (preprocess_text (get_or post "title" EmptyString)) in
  let content_score := partial_ratio question_processed post_text_processed in
  let combined_score :=
    PyNum.max (PyInt title_score)
      (PyNum.mul (PyInt content_score) (PyFloat PyNum.f0_8)) in
  let keywords := extract_keywords question in
  let keyword_matches :=
    PyNum.sum ((λ _, 1%Z) <$> filter (λ keyword, contains post_text_processed keyword)
                               keywords) in
  let keyword_bonus := PyNum.min_int (keyword_matches * 10) 30 in
  let final_score := PyNum.add combined_score (PyInt keyword_bonus) in
  {| pm_post := post;
     pm_score := final_score;
     pm_title_score := title_score;
     pm_content_score := content_score;
     pm_keyword_matches := keyword_matches |}.

(** [QAEngine.find_similar_posts]. *)
Definition find_similar_posts (self : QAEngine) (question : string)
    (threshold : Z) : list post_match :=
  if negb (nonempty (discourse_posts self)) then []
  else
    let question_processed := preprocess_text question in
    let similar_posts :=
      foldl (λ similar_posts post,
               let entry := post_entry question_processed question post in
               if PyNum.ge (pm_score entry) (PyInt threshold)
               then similar_posts ++ [entry]
               else similar_posts)
            [] (discourse_posts self) in
    let similar_posts := list_sort_reverse pm_score similar_posts in
    take 5 similar_posts.

(** One turn of the loop of [find_relevant_content]. *)
Definition content_entry (question_processed question : string)
    (content : record) : content_match :=
  let content_text := get_or content "title" EmptyString +:+ " "
                      +:+ get_or content "description" EmptyString in
  let content_text_processed := preprocess_text content_text in
  let score := partial_ratio question_processed content_text_processed in
  let keywords := extract_keywords question in
  let keyword_matches :=
    PyNum.sum ((λ _, 1%Z) <$> filter (λ keyword, contains content_text_processed keyword)
                               keywords) in
  let keyword_bonus := PyNum.min_int (keyword_matches * 15) 40 in
  let final_score := PyNum.add (PyInt score) (PyInt keyword_bonus) in
  {| cm_content := content;
     cm_score := final_score;
     cm_keyword_matches := keyword_matches |}.

(** [QAEngine.find_relevant_content]. *)
Definition find_relevant_content (self : QAEngine) (question : string)
    (threshold : Z) : list content_match :=
  if negb (nonempty (course_content self)) then []
  else
    let question_processed := preprocess_text question in
    let relevant_content :=
      foldl (λ relevant_content content,
               let entry := content_entry question_processed question content in
               if PyNum.ge (cm_score entry) (PyInt threshold)
               then relevant_content ++ [entry]
               else relevant_content)
            [] (course_content self) in
    let relevant_content := list_sort_reverse cm_score relevant_content in
    take 3 relevant_content.

(** [QAEngine.generate_answer]. *)
Definition generate_answer (question : string)
    (similar_posts : list post_match) (relevant_content : list content_match)
  : string :=
  let answer_parts := [] in
  if nonempty similar_posts || nonempty relevant_content then
    let answer_parts := answer_parts ++
      ["Based on the available course materials and forum discussions, here's what I found:"] in
    let answer_parts :=
      if nonempty relevant_content then
        foldl (λ answer_parts item,
                 let content := cm_content item in
                 let title := get_or content "title" "Untitled" in
                 let description := get_or content "description" EmptyString in
                 if truthy description
                 then answer_parts ++
                        [bullet +:+ " **" +:+ title +:+ "**: "
                         +:+ slice_to 200 description +:+ "..."]
                 else answer_parts ++ [bullet +:+ " **" +:+ title +:+ "**"])
              (answer_parts ++ [newline +:+ "**Course Content:**"])
              (take 2 relevant_content)
      else answer_parts in
    let answer_parts :=
      if nonempty similar_posts then
        foldl (λ answer_parts item,
                 let post := pm_post item in
                 let title := get_or post "title" "Untitled Post" in
                 let content := get_or post "content" EmptyString in
                 if truthy content
                 then
                   let content_preview :=
                     before_dot (slice_to 300 content) +:+ "." in
                   answer_parts ++
                     [bullet +:+ " **" +:+ title +:+ "**: " +:+ content_preview]
                 else answer_parts ++ [bullet +:+ " **" +:+ title +:+ "**"])
              (answer_parts ++ [newline +:+ "**Related Forum Discussions:**"])
              (take 2 similar_posts)
      else answer_parts in
    let answer_parts := answer_parts ++
      [newline +:+ "For more detailed information, please check the supporting links provided below."] in
    join newline answer_parts
  else
    "I couldn't find specific information related to your question in the current knowledge base. "
    +:+ "Please try rephrasing your question or contact the course instructor for assistance.".

(** [QAEngine.get_answer]; the thresholds are the defaults of the two
    finders. *)
Definition get_answer (self : QAEngine) (question : string) : result payload :=
  if negb (truthy question) || negb (truthy (strip question)) then
    Ok {| answer := "Please provide a valid question."; links := [] |}
  else
    let similar_posts := find_similar_posts self question 60 in
    let relevant_content := find_relevant_content self question 50 in
    let answer := generate_answer question similar_posts relevant_content in
    let links := [] in
    links ← for_each relevant_content
               (λ links item,
                  let content := cm_content item in
                  if truthy_opt (get content "url") then
                    u ← getitem content "url";
                    Ok (links ++
                          [{| url := u;
                              text := "Course Material: "
                                      +:+ get_or content "title" "Untitled" |}])
                  else Ok links)
               links;
    links ← for_each similar_posts
               (λ links item,
                  let post := pm_post item in
                  if truthy_opt (get post "url") then
                    u ← getitem post "url";
                    Ok (links ++
                          [{| url := u;
                              text := "Forum Discussion: "
                                      +:+ get_or post "title" "Untitled Post" |}])
                  else Ok links)
               links;
    let links := take 5 links in
    Ok {| answer := answer; links := links |}.

(** [QAEngine.get_stats]; [now] is the string that
    [datetime.now().isoformat()] returns when the method runs. *)
Definition get_stats (self : QAEngine) (now : string) : stats :=
  {| stats_discourse_posts := Z.of_nat (length (discourse_posts self));
     stats_course_content_items := Z.of_nat (length (course_content self));
     stats_total_items :=
       Z.of_nat (length (discourse_posts self))
       + Z.of_nat (length (course_content self));
     stats_last_updated := now |}.

End Engine.

(** ** Auxiliary definitions *)

(** The test that opens [get_answer]: [not question or not question.strip()]. *)
Definition blank (question : string) : bool :=
  negb (truthy question) || negb (truthy (strip question)).

(** A string made of white space only (the empty string included). *)
Fixpoint all_space (s : string) : bool :=
  match s with
  | EmptyString => true
  | String c s' => is_space c && all_space s'
  end.

(** Every character of [s] satisfies [P]. *)
Fixpoint all_chars (P : ascii → bool) (s : string) : bool :=
  match s with
  | EmptyString => true
  | String c s' => P c && all_chars P s'
  end.

(** The only white space of [s] is single spaces between other characters
    (and not at the start when [after_space] is set). *)
Fixpoint tidy (after_space : bool) (s : string) : bool :=
  match s with
  | EmptyString => true
  | String c s' =>
      if is_space c then Ascii.eqb c " " && negb after_space && tidy true s'
      else tidy false s'
  end.

(** What the engine relies on in [fuzz.partial_ratio]: the scale 0..100. *)
Definition ratio_in_range (partial_ratio : string → string → Z) : Prop :=
  ∀ a b, (0 ≤ partial_ratio a b ≤ 100)%Z.

(** What [list(set(l))] guarantees whatever the hash seed: the distinct
    elements of [l], each once, in some order. *)
Definition enumerates_set (list_set : list string → list string) : Prop :=
  ∀ l, NoDup (list_set l) ∧ ∀ x, x ∈ list_set l ↔ x ∈ l.

(** The keyword bonuses that [min(keyword_matches * 10, 30)] can take. *)
Definition bonus_values : list Z := [0; 10; 20; 30]%Z.

(** The float scores [content_score * 0.8 + bonus] for one content score:
    finite, between 0 and 130, below 80 without bonus, and growing with the
    bonus. Checked by evaluation for the scores 0..100. *)
Definition float_row_ok (cs : Z) : bool :=
  let x := PyNum.mul (PyInt cs) (PyFloat PyNum.f0_8) in
  let y := λ kb, PyNum.add x (PyInt kb) in
  (PyNum.scaled x <=? 80 * PyNum.units)%Z
  && forallb (λ kb, PyNum.is_finite (y kb)
                    && (0 <=? PyNum.scaled (y kb))%Z
                    && (PyNum.scaled (y kb) <=? 130 * PyNum.units)%Z)
       bonus_values
  && (PyNum.scaled (y 0) <=? PyNum.scaled (y 10))%Z
  && (PyNum.scaled (y 10) <=? PyNum.scaled (y 20))%Z
  && (PyNum.scaled (y 20) <=? PyNum.scaled (y 30))%Z.

(** The float scores the engine can compare, each with its exact value;
    [float_order_pair] checks that on two of them the IEEE comparison [<] of
    the processor gives what the comparison of exact values gives. *)
Definition float_scores : list (PrimFloat.float * Z) :=
  cs ← Z.of_nat <$> seq 0 101;
  kb ← bonus_values;
  let f := PyNum.to_float
             (PyNum.add (PyNum.mul (PyInt cs) (PyFloat PyNum.f0_8)) (PyInt kb)) in
  [(f, PyNum.scaled_float f)].

(** The two comparisons agree on the pair of float scores [a], [b]. *)
Definition float_order_pair (a b : PrimFloat.float * Z) : bool :=
  Bool.eqb (PrimFloat.ltb a.1 b.1) (a.2 <? b.2)%Z.

(** The float scores for one content score [cs] against exact arithmetic,
    checked by evaluation for the scores 0..100: the float [cs * 0.8] is
    above a title score [ts] exactly when [4 * cs] is above [5 * ts]; and
    with a bonus [kb] added, five times the float differs from
    [4 * cs + 5 * kb] by less than [5 * 2^-40], and not at all when [cs] is
    a multiple of 5. *)
Definition float_row_exact (cs : Z) : bool :=
  let x := PyNum.mul (PyInt cs) (PyFloat PyNum.f0_8) in
  forallb (λ ts, Bool.eqb (PyNum.gt x (PyInt ts)) (5 * ts <? 4 * cs)%Z)
    (Z.of_nat <$> seq 0 101)
  && forallb (λ kb,
                let d := (5 * PyNum.scaled (PyNum.add x (PyInt kb))
                          - (4 * cs + 5 * kb) * PyNum.units)%Z in
                (Z.abs d * 2 ^ 40 <=? 5 * PyNum.units)%Z
                && (negb (cs mod 5 =? 0)%Z || (d =? 0)%Z))
       bonus_values.

(** ** The specification's formulas (sections 4.1, 4.3, 4.4 and 4.6) *)

Module Spec.

(** The text normalizer as section 4.1 describes its output: the text in
    lower case, the characters outside [word characters, white space, -, .,
    ?, !] removed, and the white space collapsed (every run of white space
    is one space, and there is none at either end). It is idempotent
    ([normalize_idempotent]), as section 8 asks. *)
Definition normalize (x : string) : string :=
  strip (sub_spaces (sub_special (lower x))).

(** A field of a record, empty when the record lacks it. *)
Definition field (r : record) (k : string) : string :=
  match r !! k with Some v => v | None => EmptyString end.

(** The keywords of a question (4.2), as a set. *)
Definition keywords (Q : string) : gset string :=
  list_to_set (keywords_found Q).

(** The number of keywords of [Q] that occur in [item_text]. *)
Definition keyword_matches (Q item_text : string) : Z :=
  Z.of_nat (size (filter (λ k, contains item_text k) (keywords Q))).

Section Scorer.
Import QArith_base.
Local Close Scope Q_scope.

Variable partial_ratio : string → string → Z.

(** Post scoring (4.3), over the rational numbers: [0.8] is four fifths. *)
Definition post_final_score (Q : string) (P : record) : QArith_base.Q :=
  let combined_text := normalize (field P "title" +:+ " " +:+ field P "content") in
  let title_score := partial_ratio (normalize Q) (normalize (field P "title")) in
  let content_score := partial_ratio (normalize Q) combined_text in
  let keyword_matches := keyword_matches Q combined_text in
  (Qminmax.Qmax (inject_Z title_score) (inject_Z content_score * 0.8)
   + inject_Z (Z.min (keyword_matches * 10) 30))%Q.

(** Content scoring (4.3): a whole number. *)
Definition content_final_score (Q : string) (C : record) : Z :=
  let combined_text :=
    normalize (field C "title" +:+ " " +:+ field C "description") in
  let keyword_matches := keyword_matches Q combined_text in
  (partial_ratio (normalize Q) combined_text + Z.min (keyword_matches * 15) 40)%Z.

(** The exact value of a finite number of the engine, as a rational. *)
Definition value (n : number) : QArith_base.Q :=
  PyNum.scaled n # Z.to_pos PyNum.units.

(** [n] is the rational [q] up to the rounding of binary64 arithmetic:
    their distance is at most [2^-40]. *)
Definition close (n : number) (q : QArith_base.Q) : Prop :=
  (Qabs.Qabs (value n - q) <= 1 # 2 ^ 40)%Q.

(** The rational [q] is the whole number [z]. *)
Definition whole (q : QArith_base.Q) (z : Z) : Prop := (q == inject_Z z)%Q.
End Scorer.

(** The retriever's contract (4.4): [result] is the first [k] items of a
    ranking of the candidates that reach the threshold; the ranking is
    in descending order of score and keeps, for each score, the items that
    have it in the order of the corpus. *)
Definition top_k_of {A : Type} (score : A → number) (threshold : Z) (k : nat)
    (candidates result : list A) : Prop :=
  ∃ ranked : list A,
    result = take k ranked
    ∧ ranked ≡ₚ filter (λ x, PyNum.ge (score x) (PyInt threshold)) candidates
    ∧ StronglySorted (λ a b, PyNum.le (score b) (score a)) ranked
    ∧ ∀ v : Z,
        filter (λ x, PyNum.scaled (score x) = v) ranked
        = filter (λ x, PyNum.scaled (score x) = v)
            (filter (λ x, PyNum.ge (score x) (PyInt threshold)) candidates).

(** The link of one retrieved record (4.6): none without a non-empty
    [url]; the title shown is the record's title, or [untitled] for a
    record that has no title field. *)
Definition link_of (label untitled : string) (r : record) : option link :=
  match r !! "url" with
  | Some u =>
      if truthy u
      then Some {| url := u;
                   text := label +:+ default untitled (r !! "title") |}
      else None
  | None => None
  end.

(** The link list (4.6). *)
Definition links_of (relevant_content : list content_match)
    (similar_posts : list post_match) : list link :=
  take 5 (omap (λ item, link_of "Course Material: " "Untitled" (cm_content item))
            relevant_content
          ++ omap (λ item, link_of "Forum Discussion: " "Untitled Post" (pm_post item))
               similar_posts).

End Spec.

(** ** Instances for concrete runs *)

(** A stand-in for [fuzz.partial_ratio]: 100 when one of two non-empty
    strings occurs in the other, 0 otherwise. *)
Definition substring_ratio (a b : string) : Z :=
  if truthy a && truthy b && (contains b a || contains a b) then 100%Z else 0%Z.

(** A second stand-in, which answers as the library does where the library
    does not look into the strings: [fuzz.partial_ratio] gives 100 for two
    equal strings, two empty ones included, and 0 when one of two different
    strings is empty. *)
Definition equal_or_substring_ratio (a b : string) : Z :=
  if String.eqb a b then 100%Z else substring_ratio a b.

(** Two enumeration orders for [list(set(l))]. *)
Definition first_seen (l : list string) : list string := remove_dups l.
Definition last_seen_first (l : list string) : list string := reverse (remove_dups l).

Definition pandas_item : record :=
  <["title" := "Using pandas"]>
    (<["description" := "How to load a CSV into a dataframe"]>
       (<["url" := "http://x/1"]> ∅)).

Definition pandas_post : record :=
  <["title" := "pandas"]>
    (<["content" := "pandas. is great"]> (<["url" := "http://x/2"]> ∅)).

(** A second post on the same page as [pandas_post]. *)
Definition pandas_reply : record :=
  <["title" := "pandas"]>
    (<["content" := "pandas again"]> (<["url" := "http://x/2"]> ∅)).

(** A post with neither title nor url. *)
Definition untitled_post : record := <["content" := "about pandas"]> ∅.

(** A record with a url and no text. *)
Definition url_only : record := <["url" := "http://x/3"]> ∅.

(** A corpus pair made of that record. *)
Definition url_only_engine : QAEngine :=
  {| discourse_posts := [url_only]; course_content := [url_only] |}.

(** A record whose title has a special character between two words. *)
Definition ampersand_record : record := <["title" := "Machine & Learning"]> ∅.

Definition sample_engine : QAEngine :=
  {| discourse_posts := [untitled_post; pandas_post; pandas_reply];
     course_content := [pandas_item] |}.

Definition empty_engine : QAEngine :=
  {| discourse_posts := []; course_content := [] |}.

Definition crowded_engine : QAEngine :=
  {| discourse_posts := [pandas_post; pandas_reply; pandas_post];
     course_content := [pandas_item; pandas_item; pandas_item] |}.

(** ** Further definitions *)

(** Two more facts on the float scores for one content score, checked by
    evaluation: adding the bonus 0 changes nothing, and a content score
    below 38 stays below 60 with the largest bonus. *)
Definition float_row_more (cs : Z) : bool :=
  let x := PyNum.mul (PyInt cs) (PyFloat PyNum.f0_8) in
  (PyNum.scaled (PyNum.add x (PyInt 0)) =? PyNum.scaled x)%Z
  && ((38 <=? cs)%Z
      || (PyNum.scaled (PyNum.add x (PyInt 30)) <? 60 * PyNum.units)%Z).

(** The three fixed texts of [generate_answer]: the answer when nothing was
    retrieved, and the first and last parts of the other answers. *)
Definition no_match_answer : string :=
  "I couldn't find specific information related to your question in the current knowledge base. "
  +:+ "Please try rephrasing your question or contact the course instructor for assistance.".

Definition answer_opening : string :=
  "Based on the available course materials and forum discussions, here's what I found:".

Definition answer_closing : string :=
  newline
  +:+ "For more detailed information, please check the supporting links provided below.".

(** ** Loading the corpora *)




(** ** The request handler of [main.py] *)

(** The body of a request to [/api/]. *)
Record QuestionRequest : Type := {
  rq_question : string;
  rq_image : option string
}.

(** What [process_question] answers: a [QuestionResponse], or an
    [HTTPException] with its status code and detail. *)
Inductive http_response : Type :=
| QuestionResponse (answer : string) (links : list link)
| HTTPException (status_code : Z) (detail : string).

(** [str(e)] for the exceptions of the engine. *)
Definition exn_str (e : exn) : string :=
  match e with
  | KeyError k => "'" +:+ k +:+ "'"
  end.

Section Api.

Variable partial_ratio : string → string → Z.
Variable list_set : list string → list string.

(** Decoding the base64 image and reading its text ([base64.b64decode],
    [Image.open], [convert], [pytesseract.image_to_string]); [None] when one
    of these raises. *)
Variable image_to_string : string → option string.

(** [extract_text_from_image]. *)
Definition extract_text_from_image (base64_image : string) : string :=
  match image_to_string base64_image with
  | Some extracted_text => strip extracted_text
  | None => EmptyString
  end.

(** The question that [process_question] hands to the engine. *)
Definition full_question (request : QuestionRequest) : string :=
  let full_question := rq_question request in
  if truthy_opt (rq_image request) then
    let ocr_text :=
      extract_text_from_image (default EmptyString (rq_image request)) in
    if truthy ocr_text
    then rq_question request +:+ newline +:+ newline
         +:+ "Extracted from image: " +:+ ocr_text
    else full_question
  else full_question.

(** [process_question]. [timed_out] tells whether [asyncio.wait_for] gave up
    after 30 seconds; [qa_engine] is the engine built when the module is
    loaded. The last branch is the handler's [except Exception]. The
    exceptions it can meet here are those of [exn]: the corpora of
    [qa_engine] are lists of records whose values are strings, and what
    the engine raises on a record that holds a number or a list where it
    expects a string ([TypeError], [AttributeError]) is outside this
    development. *)
Definition process_question (qa_engine : QAEngine) (timed_out : bool)
    (request : QuestionRequest) : http_response :=
  let full_question := full_question request in
  if timed_out then
    HTTPException 408 "Request timeout: Could not process question within 30 seconds"
  else
    match get_answer partial_ratio list_set qa_engine full_question with
    | Ok answer_data =>
        QuestionResponse (answer answer_data)
          ((λ link, {| url := url link; text := text link |}) <$> links answer_data)
    | Raise e => HTTPException 500 ("Internal server error: " +:+ exn_str e)
    end.

End Api.

(** The line that [generate_answer] writes for one content item, and for one
    post. *)
Definition content_line (item : content_match) : string :=
  let content := cm_content item in
  let title := get_or content "title" "Untitled" in
  let description := get_or content "description" EmptyString in
  if truthy description
  then bullet +:+ " **" +:+ title +:+ "**: " +:+ slice_to 200 description +:+ "..."
  else bullet +:+ " **" +:+ title +:+ "**".

Definition post_line (item : post_match) : string :=
  let post := pm_post item in
  let title := get_or post "title" "Untitled Post" in
  let content := get_or post "content" EmptyString in
  if truthy content
  then bullet +:+ " **" +:+ title +:+ "**: "
       +:+ (before_dot (slice_to 300 content) +:+ ".")
  else bullet +:+ " **" +:+ title +:+ "**".

(** The parts that [generate_answer] joins when something was retrieved. *)
Definition answer_parts (similar_posts : list post_match)
    (relevant_content : list content_match) : list string :=
  [answer_opening]
  ++ (if nonempty relevant_content
      then (newline +:+ "**Course Content:**")
             :: (content_line <$> take 2 relevant_content)
      else [])
  ++ (if nonempty similar_posts
      then (newline +:+ "**Related Forum Discussions:**")
             :: (post_line <$> take 2 similar_posts)
      else [])
  ++ [answer_closing].

(** * Properties *)

(** ** Strings *)

Lemma rstrip_all_space s : all_space s = true → rstrip s = EmptyString.
Proof.
  induction s as [|c s IH]; simpl; [done|].
  intros [Hc Hs]%andb_prop. by rewrite IH, Hc.
Qed.

Lemma rstrip_empty_inv s : rstrip s = EmptyString → all_space s = true.
Proof.
  induction s as [|c s IH]; simpl; [done|].
  destruct (rstrip s) eqn:Hr; [|done].
  destruct (is_space c); [auto|done].
Qed.

Lemma lstrip_empty_inv s : lstrip s = EmptyString → all_space s = true.
Proof.
  induction s as [|c s IH]; simpl; [done|].
  destruct (is_space c); [auto|done].
Qed.

Lemma rstrip_all_space_inv s : all_space (rstrip s) = true → all_space s = true.
Proof.
  induction s as [|c s IH]; simpl; [done|].
  destruct (rstrip s) as [|c' r] eqn:Hr.
  - rewrite (rstrip_empty_inv _ Hr), andb_true_r.
    destruct (is_space c) eqn:Hc; simpl; [done|]. by rewrite Hc.
  - simpl. intros [Hc Hs]%andb_prop. rewrite Hc. simpl. apply IH. done.
Qed.

Lemma blank_all_space question : blank question = all_space question.
Proof.
  unfold blank, strip. destruct (all_space question) eqn:Hs.
  - rewrite (rstrip_all_space _ Hs). simpl. by rewrite orb_true_r.
  - destruct question as [|c s]; [done|].
    destruct (lstrip (rstrip (String c s))) eqn:Hl; [|done].
    apply lstrip_empty_inv, rstrip_all_space_inv in Hl. congruence.
Qed.

Lemma contains_empty k : contains EmptyString k = true → k = EmptyString.
Proof. by destruct k. Qed.

Lemma not_contains_empty k : truthy k = true → contains EmptyString k = false.
Proof. destruct k; [done|]. intros _. done. Qed.

Lemma append_truthy_r a c : truthy (a +:+ String c EmptyString) = true.
Proof. destruct a; done. Qed.

Lemma word_runs_from_truthy cur s w :
  w ∈ word_runs_from cur s → truthy w = true.
Proof.
  revert cur. induction s as [|c s IH]; simpl; intros cur.
  - destruct (truthy cur) eqn:Hc; [|by intros ?%elem_of_nil].
    by intros ->%list_elem_of_singleton.
  - destruct (is_word c); [by apply IH|].
    rewrite elem_of_app. intros [Hw|Hw]; [|by eapply IH].
    destruct (truthy cur) eqn:Hc; [|by apply elem_of_nil in Hw].
    by apply list_elem_of_singleton in Hw as ->.
Qed.

Lemma keywords_found_truthy text k :
  k ∈ keywords_found text → truthy k = true.
Proof.
  unfold keywords_found. rewrite app_nil_l, elem_of_app.
  intros [Hk|Hk].
  - apply list_elem_of_filter in Hk as [_ Hk].
    revert k Hk. apply Forall_forall. unfold tech_terms.
    repeat constructor.
  - apply elem_of_take in Hk as (i & Hk & _).
    apply list_elem_of_lookup_2 in Hk.
    apply list_elem_of_filter in Hk as [_ Hk].
    by eapply word_runs_from_truthy.
Qed.

(** ** Numbers *)

Lemma units_pos : (0 < PyNum.units)%Z.
Proof. unfold PyNum.units. lia. Qed.

Lemma min_int_min a b : PyNum.min_int a b = Z.min a b.
Proof. unfold PyNum.min_int. destruct (Z.ltb_spec b a); lia. Qed.

Lemma sum_ones_from {A} (l : list A) acc :
  foldl Z.add acc ((λ _, 1%Z) <$> l) = (acc + Z.of_nat (length l))%Z.
Proof.
  revert acc. induction l as [|x l IH]; intros acc; simpl; [lia|].
  rewrite IH. lia.
Qed.

Lemma sum_ones {A} (l : list A) :
  PyNum.sum ((λ _, 1%Z) <$> l) = Z.of_nat (length l).
Proof. unfold PyNum.sum. by rewrite sum_ones_from. Qed.

Lemma ge_le a b : PyNum.ge a b = true ↔ PyNum.le b a.
Proof. unfold PyNum.ge, PyNum.le. apply Z.leb_le. Qed.

Lemma gt_lt a b : PyNum.gt a b = true ↔ (PyNum.scaled b < PyNum.scaled a)%Z.
Proof. unfold PyNum.gt, PyNum.lt. apply Z.ltb_lt. Qed.

Lemma gt_false a b : PyNum.gt a b = false ↔ PyNum.le a b.
Proof. unfold PyNum.gt, PyNum.lt, PyNum.le. apply Z.ltb_ge. Qed.

Lemma le_int a b : PyNum.le (PyInt a) (PyInt b) ↔ (a ≤ b)%Z.
Proof.
  unfold PyNum.le. simpl. pose proof units_pos. split; [nia|].
  intros. by apply Z.mul_le_mono_nonneg_r; [lia|].
Qed.

Lemma forallb_range (P : Z → bool) (n : nat) :
  forallb P (Z.of_nat <$> seq 0 (S n)) = true →
  ∀ z, (0 ≤ z ≤ Z.of_nat n)%Z → P z = true.
Proof.
  intros H z Hz. rewrite forallb_forall in H. apply H.
  apply list_elem_of_In, list_elem_of_fmap. exists (Z.to_nat z). split; [lia|].
  apply list_elem_of_In, in_seq. lia.
Qed.

Lemma float_table : forallb float_row_ok (Z.of_nat <$> seq 0 101) = true.
Proof. vm_compute. reflexivity. Qed.

Lemma bonus_cases km :
  (0 ≤ km)%Z → PyNum.min_int (km * 10) 30 ∈ bonus_values.
Proof.
  intros Hkm. rewrite min_int_min. unfold bonus_values.
  assert (km = 0 ∨ km = 1 ∨ km = 2 ∨ 3 ≤ km)%Z as [->|[->|[->|H]]] by lia.
  - by left.
  - right; by left.
  - do 2 right; by left.
  - replace (Z.min (km * 10) 30) with 30%Z by lia. do 3 right; by left.
Qed.

(** The float branch of the post score, for a content score in 0..100 and
    two bonuses in order. *)
Lemma float_score_facts cs kb1 kb2 :
  (0 ≤ cs ≤ 100)%Z → kb1 ∈ bonus_values → kb2 ∈ bonus_values → (kb1 ≤ kb2)%Z →
  let x := PyNum.mul (PyInt cs) (PyFloat PyNum.f0_8) in
  PyNum.le x (PyInt 80)
  ∧ PyNum.is_finite (PyNum.add x (PyInt kb1)) = true
  ∧ PyNum.le (PyInt 0) (PyNum.add x (PyInt kb1))
  ∧ PyNum.le (PyNum.add x (PyInt kb1)) (PyInt 130)
  ∧ PyNum.le (PyNum.add x (PyInt kb1)) (PyNum.add x (PyInt kb2)).
Proof.
  intros Hcs Hb1 Hb2 Hle x.
  pose proof (forallb_range _ 100 float_table cs Hcs) as Hrow.
  unfold float_row_ok in Hrow. cbv zeta in Hrow. fold x in Hrow.
  apply andb_prop in Hrow as [Hrow H23].
  apply andb_prop in Hrow as [Hrow H12].
  apply andb_prop in Hrow as [Hrow H01].
  apply andb_prop in Hrow as [H80 Hall].
  apply Z.leb_le in H80, H01, H12, H23.
  rewrite forallb_forall in Hall.
  assert (∀ kb, kb ∈ bonus_values →
            PyNum.is_finite (PyNum.add x (PyInt kb)) = true
            ∧ PyNum.le (PyInt 0) (PyNum.add x (PyInt kb))
            ∧ PyNum.le (PyNum.add x (PyInt kb)) (PyInt 130)) as Hkb.
  { intros kb Hkb%list_elem_of_In. specialize (Hall kb Hkb).
    apply andb_prop in Hall as [[Hfin H0]%andb_prop H130].
    apply Z.leb_le in H0, H130.
    unfold PyNum.le. cbn [PyNum.scaled]. split; [done|]. split; lia. }
  destruct (Hkb kb1 Hb1) as (Hfin & H0 & H130).
  split; [unfold PyNum.le; cbn [PyNum.scaled]; lia|].
  do 3 (split; [done|]).
  unfold PyNum.le. unfold bonus_values in Hb1, Hb2.
  repeat (apply elem_of_cons in Hb1 as [->|Hb1]); try (by apply elem_of_nil in Hb1);
  repeat (apply elem_of_cons in Hb2 as [->|Hb2]); try (by apply elem_of_nil in Hb2);
  lia.
Qed.

(** ** Comparison of floats *)

Lemma forallb_pairs {A} (P : A → A → bool) (l : list A) :
  forallb (λ a, forallb (λ b, P a b) l) l = true →
  ∀ a b, a ∈ l → b ∈ l → P a b = true.
Proof.
  intros H a b Ha%list_elem_of_In Hb%list_elem_of_In.
  rewrite forallb_forall in H. specialize (H a Ha).
  rewrite forallb_forall in H. by apply H.
Qed.

Lemma float_order_table :
  forallb (λ a, forallb (λ b, float_order_pair a b) float_scores) float_scores
  = true.
Proof. vm_compute. reflexivity. Qed.

Lemma float_scores_complete cs kb :
  (0 ≤ cs ≤ 100)%Z → kb ∈ bonus_values →
  let x := PyNum.add (PyNum.mul (PyInt cs) (PyFloat PyNum.f0_8)) (PyInt kb) in
  (PyNum.to_float x, PyNum.scaled x) ∈ float_scores.
Proof.
  intros Hcs Hkb x. unfold float_scores.
  apply list_elem_of_bind. exists cs. split.
  - apply list_elem_of_bind. exists kb. split; [|done]. left.
  - apply list_elem_of_fmap. exists (Z.to_nat cs). split; [lia|].
    apply list_elem_of_In, in_seq. lia.
Qed.

(** On the float scores of the engine, [PyNum.lt] is the comparison of the
    processor. *)
Lemma float_order_agrees cs1 kb1 cs2 kb2 :
  (0 ≤ cs1 ≤ 100)%Z → (0 ≤ cs2 ≤ 100)%Z →
  kb1 ∈ bonus_values → kb2 ∈ bonus_values →
  let x1 := PyNum.add (PyNum.mul (PyInt cs1) (PyFloat PyNum.f0_8)) (PyInt kb1) in
  let x2 := PyNum.add (PyNum.mul (PyInt cs2) (PyFloat PyNum.f0_8)) (PyInt kb2) in
  PyNum.lt x1 x2 = PrimFloat.ltb (PyNum.to_float x1) (PyNum.to_float x2).
Proof.
  intros H1 H2 Hk1 Hk2 x1 x2.
  pose proof (forallb_pairs float_order_pair float_scores float_order_table
                _ _ (float_scores_complete cs1 kb1 H1 Hk1)
                (float_scores_complete cs2 kb2 H2 Hk2)) as H.
  apply Bool.eqb_prop in H. symmetry. exact H.
Qed.

(** ** The sort *)

Section ListSortFacts.
Context {A : Type} (key : A → number).

Lemma insert_reverse_perm x l : insert_reverse key x l ≡ₚ x :: l.
Proof.
  induction l as [|y l IH]; simpl; [done|].
  destruct (PyNum.gt (key y) (key x)); [|done].
  rewrite IH. apply Permutation_swap.
Qed.

Lemma list_sort_reverse_perm l : list_sort_reverse key l ≡ₚ l.
Proof.
  induction l as [|x l IH]; simpl; [done|].
  by rewrite insert_reverse_perm, IH.
Qed.

Lemma insert_reverse_sorted x l :
  StronglySorted (λ a b, PyNum.le (key b) (key a)) l →
  StronglySorted (λ a b, PyNum.le (key b) (key a)) (insert_reverse key x l).
Proof.
  induction 1 as [|y l Hl IH Hy]; simpl.
  - repeat constructor.
  - destruct (PyNum.gt (key y) (key x)) eqn:Hg.
    + constructor; [done|]. rewrite insert_reverse_perm.
      constructor; [|done]. apply gt_lt in Hg. unfold PyNum.le. lia.
    + apply gt_false in Hg. constructor; [by constructor|].
      constructor; [done|]. eapply Forall_impl; [done|].
      intros b Hb. unfold PyNum.le in *. simpl in *. lia.
Qed.

Lemma list_sort_reverse_sorted l :
  StronglySorted (λ a b, PyNum.le (key b) (key a)) (list_sort_reverse key l).
Proof.
  induction l as [|x l IH]; simpl; [constructor|].
  by apply insert_reverse_sorted.
Qed.

Lemma insert_reverse_stable x l v :
  filter (λ a, PyNum.scaled (key a) = v) (insert_reverse key x l)
  = filter (λ a, PyNum.scaled (key a) = v) (x :: l).
Proof.
  induction l as [|y l IH]; simpl; [done|].
  destruct (PyNum.gt (key y) (key x)) eqn:Hg; [|done].
  apply gt_lt in Hg. rewrite filter_cons, IH, !filter_cons.
  repeat case_decide; try done; lia.
Qed.

Lemma list_sort_reverse_stable l v :
  filter (λ a, PyNum.scaled (key a) = v) (list_sort_reverse key l)
  = filter (λ a, PyNum.scaled (key a) = v) l.
Proof.
  induction l as [|x l IH]; simpl; [done|].
  by rewrite insert_reverse_stable, !filter_cons, IH.
Qed.

(** A descending, stable arrangement of a list is unique: the built-in sort
    and [list_sort_reverse] return the same list. *)
Lemma list_sort_reverse_unique (l1 l2 : list A) :
  l1 ≡ₚ l2 →
  StronglySorted (λ a b, PyNum.le (key b) (key a)) l1 →
  StronglySorted (λ a b, PyNum.le (key b) (key a)) l2 →
  (∀ v, filter (λ a, PyNum.scaled (key a) = v) l1
        = filter (λ a, PyNum.scaled (key a) = v) l2) →
  l1 = l2.
Proof.
  revert l2. induction l1 as [|a l1 IH]; intros l2 Hp S1 S2 Hst.
  - by apply Permutation_nil_l in Hp.
  - destruct l2 as [|b l2]; [by apply Permutation_nil_r in Hp|].
    apply StronglySorted_inv in S1 as [S1 Ha].
    apply StronglySorted_inv in S2 as [S2 Hb].
    assert (PyNum.scaled (key a) = PyNum.scaled (key b)) as Hab.
    { assert (a ∈ b :: l2) as Ha2 by (rewrite <- Hp; left).
      assert (b ∈ a :: l1) as Hb1 by (rewrite Hp; left).
      rewrite Forall_forall in Ha, Hb. unfold PyNum.le in *.
      apply elem_of_cons in Ha2 as [->|Ha2]; [done|].
      apply elem_of_cons in Hb1 as [->|Hb1]; [done|].
      specialize (Ha _ Hb1). specialize (Hb _ Ha2). lia. }
    pose proof (Hst (PyNum.scaled (key a))) as Hhd.
    rewrite filter_cons_True in Hhd by done.
    rewrite filter_cons_True in Hhd by done.
    injection Hhd as -> _. f_equal.
    apply IH; [by eapply Permutation_cons_inv|done|done|].
    intros v. specialize (Hst v). rewrite !filter_cons in Hst.
    case_decide; [by simplify_eq|done].
Qed.

End ListSortFacts.

(** The retriever's contract determines its result. *)
Lemma top_k_of_unique {A} (score : A → number) threshold k candidates r1 r2 :
  Spec.top_k_of score threshold k candidates r1 →
  Spec.top_k_of score threshold k candidates r2 →
  r1 = r2.
Proof.
  intros (l1 & -> & Hp1 & Hs1 & Hst1) (l2 & -> & Hp2 & Hs2 & Hst2).
  f_equal. apply (list_sort_reverse_unique score); [|done|done|].
  - by rewrite Hp1, Hp2.
  - intros v. by rewrite Hst1, Hst2.
Qed.

(** ** The loops *)

Lemma foldl_keep {A B} (f : A → B) (P : B → bool) (l : list A) (acc : list B) :
  foldl (λ acc x, let entry := f x in if P entry then acc ++ [entry] else acc)
        acc l
  = acc ++ filter (λ e, P e) (f <$> l).
Proof.
  revert acc. induction l as [|x l IH]; intros acc; simpl.
  - by rewrite app_nil_r.
  - rewrite IH, filter_cons. destruct (P (f x)) eqn:HP.
    + rewrite decide_True by done. by rewrite <- app_assoc.
    + by rewrite decide_False by (by intros []).
Qed.

Lemma for_each_links {A} (proj : A → record) (label untitled : string)
    (l : list A) (acc : list link) :
  for_each l
    (λ links item,
       let r := proj item in
       if truthy_opt (get r "url") then
         u ← getitem r "url";
         Ok (links ++ [{| url := u; text := label +:+ get_or r "title" untitled |}])
       else Ok links)
    acc
  = Ok (acc ++ omap (λ item, Spec.link_of label untitled (proj item)) l).
Proof.
  revert acc. induction l as [|x l IH]; intros acc; simpl.
  - by rewrite app_nil_r.
  - unfold get, getitem, Spec.link_of, truthy_opt, get_or.
    destruct (proj x !! "url") as [u|]; simpl; [destruct (truthy u); simpl|].
    + rewrite IH. by rewrite <- app_assoc.
    + by rewrite IH.
    + by rewrite IH.
Qed.

(** ** Keyword matches *)

Section KeywordMatches.
Variable list_set : list string → list string.
Hypothesis list_set_ok : enumerates_set list_set.

Lemma keyword_count (item_text question : string) :
  PyNum.sum ((λ _, 1%Z) <$> filter (λ keyword, contains item_text keyword)
                             (extract_keywords list_set question))
  = Spec.keyword_matches question item_text.
Proof.
  rewrite sum_ones. unfold Spec.keyword_matches, Spec.keywords, extract_keywords.
  f_equal. unfold size, set_size. simpl.
  destruct (list_set_ok (keywords_found question)) as [Hnd Hel].
  apply Permutation_length, NoDup_Permutation.
  - by apply NoDup_filter.
  - apply NoDup_elements.
  - intros k. rewrite list_elem_of_filter, elem_of_elements, elem_of_filter,
      elem_of_list_to_set, Hel. done.
Qed.

Lemma keyword_count_empty_text (question : string) :
  PyNum.sum ((λ _, 1%Z) <$> filter (λ keyword, contains EmptyString keyword)
                             (extract_keywords list_set question))
  = 0%Z.
Proof.
  rewrite sum_ones. unfold extract_keywords.
  destruct (list_set_ok (keywords_found question)) as [_ Hel].
  destruct (filter _ _) as [|k rest] eqn:Hf; [done|].
  assert (k ∈ k :: rest) as Hk by left.
  rewrite <- Hf in Hk. apply list_elem_of_filter in Hk as [Hin Hk%Hel].
  apply keywords_found_truthy, not_contains_empty in Hk.
  by rewrite Hk in Hin.
Qed.

End KeywordMatches.

(** ** The finders as filter, sort and truncation *)

Section Finders.
Variable partial_ratio : string → string → Z.
Variable list_set : list string → list string.

Lemma find_similar_posts_eq self question threshold :
  find_similar_posts partial_ratio list_set self question threshold
  = take 5 (list_sort_reverse pm_score
              (filter (λ e, PyNum.ge (pm_score e) (PyInt threshold))
                 (post_entry partial_ratio list_set (preprocess_text question) question
                    <$> discourse_posts self))).
Proof.
  unfold find_similar_posts.
  destruct (discourse_posts self) as [|p ps] eqn:Hposts; [done|].
  cbn [nonempty negb]. do 2 f_equal.
  apply (foldl_keep
           (post_entry partial_ratio list_set (preprocess_text question) question)
           (λ e, PyNum.ge (pm_score e) (PyInt threshold))).
Qed.

Lemma find_relevant_content_eq self question threshold :
  find_relevant_content partial_ratio list_set self question threshold
  = take 3 (list_sort_reverse cm_score
              (filter (λ e, PyNum.ge (cm_score e) (PyInt threshold))
                 (content_entry partial_ratio list_set (preprocess_text question) question
                    <$> course_content self))).
Proof.
  unfold find_relevant_content.
  destruct (course_content self) as [|c cs] eqn:Hcontent; [done|].
  cbn [nonempty negb]. do 2 f_equal.
  apply (foldl_keep
           (content_entry partial_ratio list_set (preprocess_text question) question)
           (λ e, PyNum.ge (cm_score e) (PyInt threshold))).
Qed.

Lemma top_k_of_sorted {A} (score : A → number) threshold k candidates :
  Spec.top_k_of score threshold k candidates
    (take k (list_sort_reverse score
               (filter (λ e, PyNum.ge (score e) (PyInt threshold)) candidates))).
Proof.
  eexists. split; [done|]. split; [apply list_sort_reverse_perm|].
  split; [apply list_sort_reverse_sorted|]. intros v. apply list_sort_reverse_stable.
Qed.

Lemma get_answer_blank self question :
  blank question = true →
  get_answer partial_ratio list_set self question
  = Ok {| answer := "Please provide a valid question."; links := [] |}.
Proof. unfold get_answer, blank. by intros ->. Qed.

Lemma get_answer_not_blank self question :
  blank question = false →
  get_answer partial_ratio list_set self question
  = Ok {| answer :=
            generate_answer question
              (find_similar_posts partial_ratio list_set self question 60)
              (find_relevant_content partial_ratio list_set self question 50);
          links :=
            Spec.links_of
              (find_relevant_content partial_ratio list_set self question 50)
              (find_similar_posts partial_ratio list_set self question 60) |}.
Proof.
  unfold get_answer, blank. intros ->.
  rewrite (for_each_links cm_content "Course Material: " "Untitled").
  cbn [mbind result_bind].
  rewrite (for_each_links pm_post "Forum Discussion: " "Untitled Post").
  done.
Qed.

End Finders.

(** ** The instances satisfy the contracts *)

Lemma substring_ratio_in_range : ratio_in_range substring_ratio.
Proof. intros a b. unfold substring_ratio. destruct (_ && _); lia. Qed.

Lemma first_seen_enumerates : enumerates_set first_seen.
Proof.
  intros l. split; [apply NoDup_remove_dups|].
  intros x. apply elem_of_remove_dups.
Qed.

Lemma last_seen_first_enumerates : enumerates_set last_seen_first.
Proof.
  intros l. unfold last_seen_first. split.
  - rewrite reverse_Permutation. apply NoDup_remove_dups.
  - intros x. rewrite elem_of_reverse. apply elem_of_remove_dups.
Qed.

(** ** The scorers *)

Example post_score_sample :
  pm_score (post_entry substring_ratio first_seen
              (preprocess_text "pandas") "pandas" pandas_post) = PyInt 110
  ∧ cm_score (content_entry substring_ratio first_seen
                (preprocess_text "pandas") "pandas" pandas_item) = PyInt 115
  ∧ PyNum.value_eq
      (pm_score (post_entry substring_ratio first_seen
                   (preprocess_text "pandas") "pandas" untitled_post))
      (PyInt 90).
Proof. vm_compute. done. Qed.

(** ** The retriever *)

Lemma filter_none {A} (P : A → bool) (l : list A) :
  Forall (λ e, P e = false) l → filter (λ e, P e) l = [].
Proof.
  induction 1 as [|x l Hx _ IH]; [done|].
  rewrite filter_cons_False; [done|]. rewrite Hx. by intros [].
Qed.

(** C2: for every question, [find_similar_posts] (threshold 60, k = 5) and
    [find_relevant_content] (threshold 50, k = 3) return the first k items of
    the ranking of the items whose score reaches the threshold, in descending
    order of score, items of equal score in corpus order; the result has at
    most k items and is empty, without error, when the corpus is empty or no
    item reaches the threshold. *)
Theorem retriever_top_k partial_ratio list_set self question :
  let posts :=
    post_entry partial_ratio list_set (preprocess_text question) question
      <$> discourse_posts self in
  let items :=
    content_entry partial_ratio list_set (preprocess_text question) question
      <$> course_content self in
  let similar_posts := find_similar_posts partial_ratio list_set self question 60 in
  let relevant_content := find_relevant_content partial_ratio list_set self question 50 in
  Spec.top_k_of pm_score 60 5 posts similar_posts
  ∧ Spec.top_k_of cm_score 50 3 items relevant_content
  ∧ length similar_posts ≤ 5
  ∧ length relevant_content ≤ 3
  ∧ (discourse_posts self = [] → similar_posts = [])
  ∧ (course_content self = [] → relevant_content = [])
  ∧ (Forall (λ e, PyNum.ge (pm_score e) (PyInt 60) = false) posts →
     similar_posts = [])
  ∧ (Forall (λ e, PyNum.ge (cm_score e) (PyInt 50) = false) items →
     relevant_content = []).
Proof.
  intros posts items similar_posts relevant_content.
  subst similar_posts relevant_content.
  rewrite find_similar_posts_eq, find_relevant_content_eq. fold posts items.
  split; [apply top_k_of_sorted|]. split; [apply top_k_of_sorted|].
  split; [rewrite length_take; lia|]. split; [rewrite length_take; lia|].
  split; [|split; [|split]].
  - subst posts. by intros ->.
  - subst items. by intros ->.
  - intros H. by rewrite (filter_none (λ e, PyNum.ge (pm_score e) (PyInt 60)) _ H).
  - intros H. by rewrite (filter_none (λ e, PyNum.ge (cm_score e) (PyInt 50)) _ H).
Qed.

Lemma retriever_top_k_witness :
  (discourse_posts empty_engine = [] ∧ course_content empty_engine = [])
  ∧ (find_similar_posts substring_ratio first_seen empty_engine "pandas" 60 = []
     ∧ find_relevant_content substring_ratio first_seen empty_engine "pandas" 50 = [])
  ∧ (Forall (λ e, PyNum.ge (pm_score e) (PyInt 60) = false)
       (post_entry substring_ratio first_seen (preprocess_text "zzz qqq") "zzz qqq"
          <$> discourse_posts sample_engine)
     ∧ Forall (λ e, PyNum.ge (cm_score e) (PyInt 50) = false)
         (content_entry substring_ratio first_seen (preprocess_text "zzz qqq") "zzz qqq"
            <$> course_content sample_engine))
  ∧ (find_similar_posts substring_ratio first_seen sample_engine "zzz qqq" 60 = []
     ∧ find_relevant_content substring_ratio first_seen sample_engine "zzz qqq" 50 = []).
Proof.
  assert (Forall (λ e, PyNum.ge (pm_score e) (PyInt 60) = false)
            (post_entry substring_ratio first_seen (preprocess_text "zzz qqq") "zzz qqq"
               <$> discourse_posts sample_engine)) as Hposts.
  { repeat constructor. }
  assert (Forall (λ e, PyNum.ge (cm_score e) (PyInt 50) = false)
            (content_entry substring_ratio first_seen (preprocess_text "zzz qqq") "zzz qqq"
               <$> course_content sample_engine)) as Hitems.
  { repeat constructor. }
  destruct (retriever_top_k substring_ratio first_seen empty_engine "pandas")
    as (_ & _ & _ & _ & He1 & He2 & _ & _).
  destruct (retriever_top_k substring_ratio first_seen sample_engine "zzz qqq")
    as (_ & _ & _ & _ & _ & _ & Hn1 & Hn2).
  split; [split; reflexivity|].
  split; [split; [exact (He1 eq_refl) | exact (He2 eq_refl)]|].
  split; [split; [exact Hposts | exact Hitems]|].
  split; [exact (Hn1 Hposts) | exact (Hn2 Hitems)].
Defined.

Example ranking_sample :
  pm_post <$> find_similar_posts substring_ratio first_seen sample_engine "pandas" 60
  = [pandas_post; pandas_reply; untitled_post]
  ∧ PyNum.scaled ∘ pm_score
      <$> find_similar_posts substring_ratio first_seen sample_engine "pandas" 60
    = PyNum.scaled <$> [PyInt 110; PyInt 110; PyInt 90].
Proof. vm_compute. done. Qed.

(** ** The links *)

(** C3: for every question that is not blank, the links of the payload are
    [Spec.links_of]: one entry "Course Material: <title>" for each retrieved
    content item with a non-empty url, in ranked order, then one entry
    "Forum Discussion: <title>" for each retrieved post with a non-empty url,
    in ranked order, the whole cut to its first 5 entries; items without url
    give no entry, equal urls are all kept, and there are at most 5 links.
    The title shown for a record that has no title field is the source's
    "Untitled" (content) or "Untitled Post" (posts). *)
Theorem links_of_answer partial_ratio list_set self question :
  all_space question = false →
  let relevant_content := find_relevant_content partial_ratio list_set self question 50 in
  let similar_posts := find_similar_posts partial_ratio list_set self question 60 in
  get_answer partial_ratio list_set self question
  = Ok {| answer := generate_answer question similar_posts relevant_content;
          links := Spec.links_of relevant_content similar_posts |}
  ∧ length (Spec.links_of relevant_content similar_posts) ≤ 5.
Proof.
  intros Hq relevant_content similar_posts. split.
  - apply get_answer_not_blank. by rewrite blank_all_space.
  - unfold Spec.links_of. rewrite length_take. lia.
Qed.

Lemma links_of_answer_witness :
  all_space "pandas" = false
  ∧ ∃ a, get_answer substring_ratio first_seen sample_engine "pandas"
         = Ok {| answer := a;
                 links :=
                   [ {| url := "http://x/1"; text := "Course Material: Using pandas" |};
                     {| url := "http://x/2"; text := "Forum Discussion: pandas" |};
                     {| url := "http://x/2"; text := "Forum Discussion: pandas" |} ] |}.
Proof.
  split; [reflexivity|]. eexists.
  destruct (links_of_answer substring_ratio first_seen sample_engine "pandas" eq_refl)
    as [-> _].
  f_equal.
Defined.

Example links_cap_sample :
  match get_answer substring_ratio first_seen crowded_engine "pandas" with
  | Ok p =>
      links p
      = [ {| url := "http://x/1"; text := "Course Material: Using pandas" |};
          {| url := "http://x/1"; text := "Course Material: Using pandas" |};
          {| url := "http://x/1"; text := "Course Material: Using pandas" |};
          {| url := "http://x/2"; text := "Forum Discussion: pandas" |};
          {| url := "http://x/2"; text := "Forum Discussion: pandas" |} ]
  | Raise _ => False
  end.
Proof. vm_compute. done. Qed.

(** ** No exception *)

Lemma get_or_field r k : get_or r k EmptyString = Spec.field r k.
Proof. unfold get_or, Spec.field. by destruct (r !! k). Qed.

(** The entry of a record without text, for a question that is normalized
    to the empty string, when [partial_ratio] of two empty strings is 100. *)
Section EmptyText.
Variable partial_ratio : string → string → Z.
Variable list_set : list string → list string.
Hypothesis list_set_ok : enumerates_set list_set.
Hypothesis ratio_empty : partial_ratio EmptyString EmptyString = 100%Z.

Lemma post_entry_empty question r :
  preprocess_text question = EmptyString →
  Spec.field r "title" = EmptyString → Spec.field r "content" = EmptyString →
  post_entry partial_ratio list_set (preprocess_text question) question r
  = {| pm_post := r; pm_score := PyInt 100; pm_title_score := 100;
       pm_content_score := 100; pm_keyword_matches := 0 |}.
Proof.
  intros Hq Ht Hc. unfold post_entry. rewrite !get_or_field, Ht, Hc, Hq.
  change (preprocess_text (EmptyString +:+ " " +:+ EmptyString)) with EmptyString.
  change (preprocess_text EmptyString) with EmptyString.
  rewrite ratio_empty, (keyword_count_empty_text _ list_set_ok).
  reflexivity.
Qed.

Lemma content_entry_empty question r :
  preprocess_text question = EmptyString →
  Spec.field r "title" = EmptyString → Spec.field r "description" = EmptyString →
  content_entry partial_ratio list_set (preprocess_text question) question r
  = {| cm_content := r; cm_score := PyInt 100; cm_keyword_matches := 0 |}.
Proof.
  intros Hq Ht Hc. unfold content_entry. rewrite !get_or_field, Ht, Hc, Hq.
  change (preprocess_text (EmptyString +:+ " " +:+ EmptyString)) with EmptyString.
  rewrite ratio_empty, (keyword_count_empty_text _ list_set_ok).
  reflexivity.
Qed.

End EmptyText.

(** C4: for every question and every pair of corpora, whatever fields their
    records lack or leave empty, [get_answer] returns a payload and does not
    raise; a record whose text fields are missing or empty, or an empty
    question, gets no keyword match, hence no bonus. Its similarity is not
    low, though, when the question has text that the normalizer deletes
    whole: the question "@@@" is not blank, so it passes the test that opens
    [get_answer], and is normalized to the empty string, as is the text of a
    record without title and content; the library gives 100 for two equal
    strings, so the record scores 100 in both corpora, is retrieved, and is
    listed in the answer and the links. *)
Theorem get_answer_never_raises_empty_match partial_ratio list_set :
  (∀ self question, ∃ p, get_answer partial_ratio list_set self question = Ok p)
  ∧ (enumerates_set list_set →
     ∀ question r,
       question = EmptyString
       ∨ (Spec.field r "title" = EmptyString ∧ Spec.field r "content" = EmptyString) →
       pm_keyword_matches
         (post_entry partial_ratio list_set (preprocess_text question) question r) = 0%Z)
  ∧ (enumerates_set list_set →
     ∀ question r,
       question = EmptyString
       ∨ (Spec.field r "title" = EmptyString ∧ Spec.field r "description" = EmptyString) →
       cm_keyword_matches
         (content_entry partial_ratio list_set (preprocess_text question) question r) = 0%Z)
  ∧ (enumerates_set list_set →
     partial_ratio EmptyString EmptyString = 100%Z →
     let question := "@@@" in
     let p := post_entry partial_ratio list_set (preprocess_text question) question
                url_only in
     let c := content_entry partial_ratio list_set (preprocess_text question) question
                url_only in
     all_space question = false
     ∧ preprocess_text question = EmptyString
     ∧ pm_title_score p = 100%Z
     ∧ pm_content_score p = 100%Z
     ∧ pm_score p = PyInt 100
     ∧ cm_score c = PyInt 100
     ∧ find_similar_posts partial_ratio list_set url_only_engine question 60 = [p]
     ∧ find_relevant_content partial_ratio list_set url_only_engine question 50 = [c]
     ∧ get_answer partial_ratio list_set url_only_engine question
       = Ok {| answer :=
                 join newline
                   [ answer_opening;
                     newline +:+ "**Course Content:**";
                     bullet +:+ " **Untitled**";
                     newline +:+ "**Related Forum Discussions:**";
                     bullet +:+ " **Untitled Post**";
                     answer_closing ];
               links :=
                 [ {| url := "http://x/3"; text := "Course Material: Untitled" |};
                   {| url := "http://x/3";
                      text := "Forum Discussion: Untitled Post" |} ] |}).
Proof.
  split; [|split; [|split]].
  - intros self question. destruct (blank question) eqn:Hq.
    + eexists. by apply get_answer_blank.
    + eexists. by apply get_answer_not_blank.
  - intros Hset question r Hempty.
    unfold post_entry. cbn [pm_keyword_matches].
    rewrite (keyword_count _ Hset). destruct Hempty as [->|[Ht Hc]].
    + reflexivity.
    + rewrite !get_or_field, Ht, Hc.
      change (preprocess_text (EmptyString +:+ " " +:+ EmptyString)) with EmptyString.
      rewrite <- (keyword_count _ Hset). by apply keyword_count_empty_text.
  - intros Hset question r Hempty.
    unfold content_entry. cbn [cm_keyword_matches].
    rewrite (keyword_count _ Hset). destruct Hempty as [->|[Ht Hc]].
    + reflexivity.
    + rewrite !get_or_field, Ht, Hc.
      change (preprocess_text (EmptyString +:+ " " +:+ EmptyString)) with EmptyString.
      rewrite <- (keyword_count _ Hset). by apply keyword_count_empty_text.
  - intros Hset Hratio question p c.
    assert (p = {| pm_post := url_only; pm_score := PyInt 100; pm_title_score := 100;
                   pm_content_score := 100; pm_keyword_matches := 0 |}) as Hp.
    { by apply post_entry_empty. }
    assert (c = {| cm_content := url_only; cm_score := PyInt 100;
                   cm_keyword_matches := 0 |}) as Hc.
    { by apply content_entry_empty. }
    assert (find_similar_posts partial_ratio list_set url_only_engine question 60
            = [p]) as Hposts.
    { rewrite find_similar_posts_eq. cbn [url_only_engine discourse_posts fmap list_fmap].
      fold p. rewrite Hp. reflexivity. }
    assert (find_relevant_content partial_ratio list_set url_only_engine question 50
            = [c]) as Hitems.
    { rewrite find_relevant_content_eq.
      cbn [url_only_engine course_content fmap list_fmap].
      fold c. rewrite Hc. reflexivity. }
    split; [reflexivity|]. split; [reflexivity|].
    split; [by rewrite Hp|]. split; [by rewrite Hp|]. split; [by rewrite Hp|].
    split; [by rewrite Hc|]. split; [exact Hposts|]. split; [exact Hitems|].
    rewrite get_answer_not_blank by reflexivity.
    rewrite Hposts, Hitems, Hp, Hc. by vm_compute.
Qed.

Lemma get_answer_never_raises_empty_match_witness :
  enumerates_set first_seen
  ∧ equal_or_substring_ratio EmptyString EmptyString = 100%Z
  ∧ (Spec.field ∅ "title" = EmptyString ∧ Spec.field ∅ "content" = EmptyString)
  ∧ pm_keyword_matches
      (post_entry equal_or_substring_ratio first_seen (preprocess_text "pandas")
         "pandas" ∅) = 0%Z
  ∧ cm_keyword_matches
      (content_entry equal_or_substring_ratio first_seen (preprocess_text EmptyString)
         EmptyString pandas_item) = 0%Z
  ∧ pm_score <$> find_similar_posts equal_or_substring_ratio first_seen
                   url_only_engine "@@@" 60
    = [PyInt 100]
  ∧ cm_score <$> find_relevant_content equal_or_substring_ratio first_seen
                   url_only_engine "@@@" 50
    = [PyInt 100].
Proof.
  destruct (get_answer_never_raises_empty_match equal_or_substring_ratio first_seen)
    as (_ & Hp & Hc & He).
  destruct (He first_seen_enumerates eq_refl)
    as (_ & _ & _ & _ & Hps & Hcs & Hposts & Hitems & _).
  split; [exact first_seen_enumerates|].
  split; [reflexivity|].
  split; [split; reflexivity|].
  split; [apply (Hp first_seen_enumerates); right; split; reflexivity|].
  split; [apply (Hc first_seen_enumerates); by left|].
  split.
  - rewrite Hposts. cbn [fmap list_fmap]. by rewrite Hps.
  - rewrite Hitems. cbn [fmap list_fmap]. by rewrite Hcs.
Defined.

(** ** The blank question *)

(** C5: for every question that is empty or made of white space only,
    [get_answer] returns the fixed prompt with no links, whatever the corpora
    and the similarity function: nothing is scored. *)
Theorem blank_question_prompt partial_ratio list_set self question :
  all_space question = true →
  get_answer partial_ratio list_set self question
  = Ok {| answer := "Please provide a valid question."; links := [] |}.
Proof.
  intros Hq. apply get_answer_blank. by rewrite blank_all_space.
Qed.

Lemma blank_question_prompt_witness :
  all_space (" " +:+ newline +:+ "  ") = true
  ∧ get_answer substring_ratio first_seen sample_engine (" " +:+ newline +:+ "  ")
    = Ok {| answer := "Please provide a valid question."; links := [] |}.
Proof.
  split; [reflexivity|].
  exact (blank_question_prompt substring_ratio first_seen sample_engine
           (" " +:+ newline +:+ "  ") eq_refl).
Defined.

(** ** The statistics *)

(** C9: for corpora of p posts and c content items, [get_stats] returns the
    counts p and c, their sum p + c as the total, and the time stamp read
    from the clock. *)
Theorem get_stats_counts self now :
  let s := get_stats self now in
  stats_discourse_posts s = Z.of_nat (length (discourse_posts self))
  ∧ stats_course_content_items s = Z.of_nat (length (course_content self))
  ∧ stats_total_items s
    = (Z.of_nat (length (discourse_posts self))
       + Z.of_nat (length (course_content self)))%Z
  ∧ stats_total_items s
    = (stats_discourse_posts s + stats_course_content_items s)%Z
  ∧ stats_last_updated s = now.
Proof. repeat split. Qed.

Example stats_sample :
  get_stats sample_engine "2025-06-01T12:00:00"
  = {| stats_discourse_posts := 3; stats_course_content_items := 1;
       stats_total_items := 4; stats_last_updated := "2025-06-01T12:00:00" |}.
Proof. reflexivity. Qed.

(** ** The range of the scores *)

Lemma post_entry_score partial_ratio list_set qp q r :
  let e := post_entry partial_ratio list_set qp q r in
  pm_score e
  = PyNum.add
      (PyNum.max (PyInt (pm_title_score e))
         (PyNum.mul (PyInt (pm_content_score e)) (PyFloat PyNum.f0_8)))
      (PyInt (PyNum.min_int (pm_keyword_matches e * 10) 30))
  ∧ (0 ≤ pm_keyword_matches e)%Z.
Proof.
  split; [reflexivity|]. unfold post_entry. cbn [pm_keyword_matches].
  rewrite sum_ones. lia.
Qed.

Lemma content_entry_score partial_ratio list_set qp q r :
  let e := content_entry partial_ratio list_set qp q r in
  cm_score e
  = PyInt (partial_ratio qp
             (preprocess_text (get_or r "title" EmptyString +:+ " "
                               +:+ get_or r "description" EmptyString))
           + PyNum.min_int (cm_keyword_matches e * 15) 40)
  ∧ (0 ≤ cm_keyword_matches e)%Z.
Proof.
  split; [reflexivity|]. unfold content_entry. cbn [cm_keyword_matches].
  rewrite sum_ones. lia.
Qed.

(** The arithmetic of the post score, for component scores on the scale
    0..100 and two keyword counts in order. *)
Lemma post_formula_facts ts cs km1 km2 :
  (0 ≤ ts ≤ 100)%Z → (0 ≤ cs ≤ 100)%Z → (0 ≤ km1 ≤ km2)%Z →
  let f := λ km,
    PyNum.add
      (PyNum.max (PyInt ts) (PyNum.mul (PyInt cs) (PyFloat PyNum.f0_8)))
      (PyInt (PyNum.min_int (km * 10) 30)) in
  PyNum.is_finite (f km1) = true
  ∧ PyNum.le (PyInt 0) (f km1)
  ∧ PyNum.le (f km1) (PyInt 130)
  ∧ PyNum.le (f km1) (f km2)
  ∧ (ts = 100%Z → (1 ≤ km1)%Z → PyNum.le (PyInt 110) (f km1)).
Proof.
  intros Hts Hcs Hkm f. subst f. cbv beta.
  assert (PyNum.min_int (km1 * 10) 30 ≤ PyNum.min_int (km2 * 10) 30)%Z as Hkb
    by (rewrite !min_int_min; lia).
  destruct (float_score_facts cs _ _ Hcs
              (bonus_cases km1 ltac:(lia)) (bonus_cases km2 ltac:(lia)) Hkb)
    as (H80 & Hfin & H0 & H130 & Hmono).
  unfold PyNum.max.
  destruct (PyNum.gt (PyNum.mul (PyInt cs) (PyFloat PyNum.f0_8)) (PyInt ts)) eqn:Hg.
  - do 4 (split; [done|]). intros -> _. apply gt_lt in Hg.
    unfold PyNum.le in H80. cbn [PyNum.scaled] in H80, Hg.
    pose proof units_pos. nia.
  - cbn [PyNum.add]. split; [done|]. rewrite !le_int, !min_int_min.
    repeat split; lia.
Qed.

(** C6: every score computed by either scorer is a finite number that is not
    negative (posts: at most 130, content items: at most 140); it is not cut
    back to the scale 0..100: a full similarity of 100 with at least one
    keyword match scores 110 or more (posts), 115 or more (content items). *)
Theorem final_scores_finite_nonneg partial_ratio list_set :
  ratio_in_range partial_ratio →
  ∀ (Q : string) (P C : record),
    let p := post_entry partial_ratio list_set (preprocess_text Q) Q P in
    let c := content_entry partial_ratio list_set (preprocess_text Q) Q C in
    (PyNum.is_finite (pm_score p) = true
     ∧ PyNum.le (PyInt 0) (pm_score p) ∧ PyNum.le (pm_score p) (PyInt 130))
    ∧ (PyNum.is_finite (cm_score c) = true
       ∧ PyNum.le (PyInt 0) (cm_score c) ∧ PyNum.le (cm_score c) (PyInt 140))
    ∧ (pm_title_score p = 100%Z → (1 ≤ pm_keyword_matches p)%Z →
       PyNum.le (PyInt 110) (pm_score p))
    ∧ (partial_ratio (preprocess_text Q)
         (preprocess_text (Spec.field C "title" +:+ " " +:+ Spec.field C "description"))
       = 100%Z →
       (1 ≤ cm_keyword_matches c)%Z →
       PyNum.le (PyInt 115) (cm_score c)).
Proof.
  intros Hrange Q P C p c.
  destruct (post_entry_score partial_ratio list_set (preprocess_text Q) Q P)
    as [Hp Hkm].
  destruct (content_entry_score partial_ratio list_set (preprocess_text Q) Q C)
    as [Hc Hkc].
  fold p in Hp, Hkm. fold c in Hc, Hkc.
  destruct (post_formula_facts (pm_title_score p) (pm_content_score p)
              (pm_keyword_matches p) (pm_keyword_matches p))
    as (Hfin & H0 & H130 & _ & Hex); [apply Hrange|apply Hrange|lia|].
  cbv beta in Hfin, H0, H130, Hex. rewrite <- Hp in Hfin, H0, H130, Hex.
  split; [done|].
  rewrite Hc, !get_or_field. rewrite !le_int, min_int_min.
  pose proof (Hrange (preprocess_text Q)
                (preprocess_text (Spec.field C "title" +:+ " "
                                  +:+ Spec.field C "description"))) as Hs.
  split; [|split; [done|]].
  - split; [done|]. lia.
  - lia.
Qed.

Lemma final_scores_finite_nonneg_witness :
  ratio_in_range substring_ratio
  ∧ (let p := post_entry substring_ratio first_seen
                (preprocess_text "pandas") "pandas" pandas_post in
     pm_title_score p = 100%Z ∧ (1 ≤ pm_keyword_matches p)%Z
     ∧ PyNum.is_finite (pm_score p) = true
     ∧ PyNum.le (PyInt 110) (pm_score p))
  ∧ (let c := content_entry substring_ratio first_seen
                (preprocess_text "pandas") "pandas" pandas_item in
     (1 ≤ cm_keyword_matches c)%Z
     ∧ PyNum.is_finite (cm_score c) = true
     ∧ PyNum.le (PyInt 115) (cm_score c)).
Proof.
  destruct (final_scores_finite_nonneg substring_ratio first_seen
              substring_ratio_in_range "pandas" pandas_post pandas_item)
    as ((Hfp & _ & _) & (Hfc & _ & _) & Hp & Hc).
  split; [exact substring_ratio_in_range|]. split.
  - split; [reflexivity|]. split; [by vm_compute|]. split; [exact Hfp|].
    apply Hp; [reflexivity | by vm_compute].
  - split; [by vm_compute|]. split; [exact Hfc|].
    apply Hc; [reflexivity | by vm_compute].
Defined.

(** ** Monotonicity in the keyword matches *)

(** C8: for a fixed item and fixed fuzzy similarity scores, a question with
    more keyword matches never gets a lower final score, for posts and for
    content items; the bonuses [min(k * 10, 30)] and [min(k * 15, 40)] do not
    decrease when [k] grows. *)
Theorem keyword_bonus_monotone partial_ratio list_set :
  ratio_in_range partial_ratio →
  (∀ (Q1 Q2 : string) (P : record),
     let e1 := post_entry partial_ratio list_set (preprocess_text Q1) Q1 P in
     let e2 := post_entry partial_ratio list_set (preprocess_text Q2) Q2 P in
     pm_title_score e1 = pm_title_score e2 →
     pm_content_score e1 = pm_content_score e2 →
     (pm_keyword_matches e1 ≤ pm_keyword_matches e2)%Z →
     PyNum.le (pm_score e1) (pm_score e2))
  ∧ (∀ (Q1 Q2 : string) (C : record),
       let item_text :=
         preprocess_text (Spec.field C "title" +:+ " " +:+ Spec.field C "description") in
       let e1 := content_entry partial_ratio list_set (preprocess_text Q1) Q1 C in
       let e2 := content_entry partial_ratio list_set (preprocess_text Q2) Q2 C in
       partial_ratio (preprocess_text Q1) item_text
       = partial_ratio (preprocess_text Q2) item_text →
       (cm_keyword_matches e1 ≤ cm_keyword_matches e2)%Z →
       PyNum.le (cm_score e1) (cm_score e2))
  ∧ (∀ k1 k2 : Z, (k1 ≤ k2)%Z →
       (PyNum.min_int (k1 * 10) 30 ≤ PyNum.min_int (k2 * 10) 30)%Z)
  ∧ (∀ k1 k2 : Z, (k1 ≤ k2)%Z →
       (PyNum.min_int (k1 * 15) 40 ≤ PyNum.min_int (k2 * 15) 40)%Z).
Proof.
  intros Hrange. split; [|split; [|split]].
  - intros Q1 Q2 P e1 e2 Hts Hcs Hkm.
    destruct (post_entry_score partial_ratio list_set (preprocess_text Q1) Q1 P)
      as [H1 Hk1].
    destruct (post_entry_score partial_ratio list_set (preprocess_text Q2) Q2 P)
      as [H2 Hk2].
    fold e1 in H1, Hk1. fold e2 in H2, Hk2.
    destruct (post_formula_facts (pm_title_score e1) (pm_content_score e1)
                (pm_keyword_matches e1) (pm_keyword_matches e2))
      as (_ & _ & _ & Hmono & _); [apply Hrange|apply Hrange|lia|].
    cbv beta in Hmono. rewrite <- H1 in Hmono.
    rewrite Hts, Hcs, <- H2 in Hmono. done.
  - intros Q1 Q2 C item_text e1 e2 Hs Hkm.
    destruct (content_entry_score partial_ratio list_set (preprocess_text Q1) Q1 C)
      as [H1 _].
    destruct (content_entry_score partial_ratio list_set (preprocess_text Q2) Q2 C)
      as [H2 _].
    fold e1 in H1. fold e2 in H2. rewrite H1, H2, !get_or_field.
    fold item_text. rewrite Hs, le_int, !min_int_min. lia.
  - intros k1 k2 Hk. rewrite !min_int_min. lia.
  - intros k1 k2 Hk. rewrite !min_int_min. lia.
Qed.

Lemma keyword_bonus_monotone_witness :
  ratio_in_range substring_ratio
  ∧ (let e1 := post_entry substring_ratio first_seen
                 (preprocess_text "about") "about" untitled_post in
     let e2 := post_entry substring_ratio first_seen
                 (preprocess_text "about pandas") "about pandas" untitled_post in
     pm_title_score e1 = pm_title_score e2
     ∧ pm_content_score e1 = pm_content_score e2
     ∧ pm_keyword_matches e1 = 1%Z ∧ pm_keyword_matches e2 = 2%Z
     ∧ PyNum.le (pm_score e1) (pm_score e2))
  ∧ (let e1 := content_entry substring_ratio first_seen
                 (preprocess_text "load") "load" pandas_item in
     let e2 := content_entry substring_ratio first_seen
                 (preprocess_text "load a csv") "load a csv" pandas_item in
     cm_keyword_matches e1 = 1%Z ∧ cm_keyword_matches e2 = 2%Z
     ∧ PyNum.le (cm_score e1) (cm_score e2))
  ∧ (PyNum.min_int (2 * 10) 30 ≤ PyNum.min_int (5 * 10) 30)%Z
  ∧ (PyNum.min_int (2 * 15) 40 ≤ PyNum.min_int (5 * 15) 40)%Z.
Proof.
  destruct (keyword_bonus_monotone substring_ratio first_seen substring_ratio_in_range)
    as (Hp & Hc & Hb10 & Hb15).
  split; [exact substring_ratio_in_range|]. split; [|split; [|split]].
  - do 4 (split; [reflexivity|]).
    apply (Hp "about" "about pandas" untitled_post); [reflexivity|reflexivity|].
    by vm_compute.
  - do 2 (split; [reflexivity|]).
    apply (Hc "load" "load a csv" pandas_item); [reflexivity|]. by vm_compute.
  - apply Hb10. lia.
  - apply Hb15. lia.
Defined.

(** ** Determinism *)

Lemma post_entry_any_order partial_ratio ls1 ls2 qp q r :
  enumerates_set ls1 → enumerates_set ls2 →
  post_entry partial_ratio ls1 qp q r = post_entry partial_ratio ls2 qp q r.
Proof.
  intros H1 H2. unfold post_entry.
  by rewrite (keyword_count _ H1), (keyword_count _ H2).
Qed.

Lemma content_entry_any_order partial_ratio ls1 ls2 qp q r :
  enumerates_set ls1 → enumerates_set ls2 →
  content_entry partial_ratio ls1 qp q r = content_entry partial_ratio ls2 qp q r.
Proof.
  intros H1 H2. unfold content_entry.
  by rewrite (keyword_count _ H1), (keyword_count _ H2).
Qed.

(** C10: for fixed corpora, [get_answer] is a function of the question: it
    takes no clock reading (unlike [get_stats]) and no random input, and the
    one thing that varies between runs of the interpreter, the order in
    which [list(set(keywords))] lists the keywords, does not change the
    payload. *)
Theorem get_answer_deterministic partial_ratio ls1 ls2 :
  enumerates_set ls1 → enumerates_set ls2 →
  ∀ self question,
    get_answer partial_ratio ls1 self question
    = get_answer partial_ratio ls2 self question.
Proof.
  intros H1 H2 self question.
  assert (∀ t, find_similar_posts partial_ratio ls1 self question t
               = find_similar_posts partial_ratio ls2 self question t) as Hposts.
  { intros t. rewrite !find_similar_posts_eq. do 3 f_equal.
    apply list_fmap_ext. intros _ r _. by apply post_entry_any_order. }
  assert (∀ t, find_relevant_content partial_ratio ls1 self question t
               = find_relevant_content partial_ratio ls2 self question t) as Hitems.
  { intros t. rewrite !find_relevant_content_eq. do 3 f_equal.
    apply list_fmap_ext. intros _ r _. by apply content_entry_any_order. }
  destruct (blank question) eqn:Hq.
  - by rewrite !get_answer_blank.
  - rewrite !get_answer_not_blank by done. by rewrite Hposts, Hitems.
Qed.

Lemma get_answer_deterministic_witness :
  (enumerates_set first_seen ∧ enumerates_set last_seen_first)
  ∧ get_answer substring_ratio first_seen sample_engine "How do I load a csv with pandas?"
    = get_answer substring_ratio last_seen_first sample_engine
        "How do I load a csv with pandas?".
Proof.
  split; [split; [exact first_seen_enumerates | exact last_seen_first_enumerates]|].
  exact (get_answer_deterministic substring_ratio first_seen last_seen_first
           first_seen_enumerates last_seen_first_enumerates sample_engine
           "How do I load a csv with pandas?").
Defined.

Example keyword_orders_differ :
  extract_keywords first_seen "How do I load a csv with pandas?"
  = ["csv"; "load"; "with"; "pandas"]
  ∧ extract_keywords last_seen_first "How do I load a csv with pandas?"
    = ["pandas"; "with"; "load"; "csv"].
Proof. vm_compute. done. Qed.

(** ** The normalizer *)

Example preprocess_text_samples :
  preprocess_text EmptyString = EmptyString
  ∧ preprocess_text "HELLO   World!!" = "hello world!!".
Proof. split; reflexivity. Qed.

Lemma all_ascii (P : ascii → Prop) :
  (∀ n, (n < 256)%nat → P (ascii_of_nat n)) → ∀ c, P c.
Proof.
  intros H c. rewrite <- (ascii_nat_embedding c). apply H, nat_ascii_bounded.
Qed.

Lemma char_table :
  forallb (λ n, let c := ascii_of_nat n in
                Ascii.eqb (lower_char (lower_char c)) (lower_char c)
                && Bool.eqb (is_space (lower_char c)) (is_space c)
                && implb (is_kept c) (is_kept (lower_char c)))
    (seq 0 256) = true.
Proof. vm_compute. reflexivity. Qed.

Lemma lower_char_facts c :
  lower_char (lower_char c) = lower_char c
  ∧ is_space (lower_char c) = is_space c
  ∧ (is_kept c = true → is_kept (lower_char c) = true).
Proof.
  revert c. apply all_ascii. intros n Hn.
  pose proof char_table as H. rewrite forallb_forall in H.
  specialize (H n ltac:(apply in_seq; lia)). cbv zeta in H.
  apply andb_prop in H as [[H1 H2]%andb_prop H3].
  apply Ascii.eqb_eq in H1. apply Bool.eqb_prop in H2.
  split; [done|]. split; [done|]. intros Hk. by rewrite Hk in H3.
Qed.

(** The normalizer on text without special characters. *)

Lemma lower_lower s : lower (lower s) = lower s.
Proof.
  induction s as [|c s IH]; simpl; [done|].
  by rewrite IH, (proj1 (lower_char_facts c)).
Qed.

Lemma lower_sub_spaces_from b s :
  lower (sub_spaces_from b s) = sub_spaces_from b (lower s).
Proof.
  revert b. induction s as [|c s IH]; intros b; simpl; [done|].
  destruct (lower_char_facts c) as (_ & -> & _).
  destruct (is_space c), b; simpl; by rewrite IH.
Qed.

Lemma lower_lstrip s : lower (lstrip s) = lstrip (lower s).
Proof.
  induction s as [|c s IH]; simpl; [done|].
  destruct (lower_char_facts c) as (_ & -> & _).
  by destruct (is_space c).
Qed.

Lemma lower_rstrip s : lower (rstrip s) = rstrip (lower s).
Proof.
  induction s as [|c s IH]; simpl; [done|].
  destruct (lower_char_facts c) as (_ & -> & _). rewrite <- IH.
  destruct (rstrip s); simpl; [by destruct (is_space c)|done].
Qed.

Lemma lower_strip s : lower (strip s) = strip (lower s).
Proof. unfold strip. by rewrite lower_lstrip, lower_rstrip. Qed.

Lemma lstrip_lstrip s : lstrip (lstrip s) = lstrip s.
Proof.
  induction s as [|c s IH]; simpl; [done|].
  destruct (is_space c) eqn:Hc; [done|]. simpl. by rewrite Hc.
Qed.

Lemma rstrip_fixed_tail c s : rstrip (String c s) = String c s → rstrip s = s.
Proof.
  simpl. destruct (rstrip s) as [|c' r] eqn:Hr.
  - destruct (is_space c); [done|]. by intros [= <-].
  - by intros [= <-].
Qed.

Lemma rstrip_rstrip s : rstrip (rstrip s) = rstrip s.
Proof.
  induction s as [|c s IH]; simpl; [done|].
  destruct (rstrip s) as [|c' r] eqn:Hr.
  - destruct (is_space c) eqn:Hc; [done|]. simpl. by rewrite Hc.
  - change (rstrip (String c (String c' r))) with
      (match rstrip (String c' r) with
       | EmptyString => if is_space c then EmptyString else String c EmptyString
       | r' => String c r'
       end).
    by rewrite IH.
Qed.

Lemma rstrip_lstrip s : rstrip s = s → rstrip (lstrip s) = lstrip s.
Proof.
  induction s as [|c s IH]; [done|]. intros Hs.
  pose proof (rstrip_fixed_tail _ _ Hs) as Hs'.
  cbn [lstrip]. destruct (is_space c); [by apply IH|done].
Qed.

Lemma strip_strip s : strip (strip s) = strip s.
Proof.
  unfold strip.
  rewrite (rstrip_lstrip (rstrip s)) by apply rstrip_rstrip.
  apply lstrip_lstrip.
Qed.

Lemma tidy_weaken b s : tidy b s = true → tidy false s = true.
Proof.
  destruct s as [|c s]; simpl; [done|].
  destruct (is_space c); [|done].
  intros [[-> _]%andb_prop ->]%andb_prop. done.
Qed.

Lemma tidy_sub_spaces_from b s : tidy b (sub_spaces_from b s) = true.
Proof.
  revert b. induction s as [|c s IH]; intros b; simpl; [done|].
  destruct (is_space c) eqn:Hc.
  - destruct b; [apply IH|]. simpl. apply IH.
  - simpl. rewrite Hc. apply IH.
Qed.

Lemma sub_spaces_from_tidy b s : tidy b s = true → sub_spaces_from b s = s.
Proof.
  revert b. induction s as [|c s IH]; intros b; simpl; [done|].
  destruct (is_space c).
  - intros [[Hc Hb]%andb_prop Hs]%andb_prop.
    apply Ascii.eqb_eq in Hc as ->. destruct b; [done|]. by rewrite IH.
  - intros Hs. by rewrite IH.
Qed.

Lemma tidy_lstrip b s : tidy b s = true → tidy true (lstrip s) = true.
Proof.
  revert b. induction s as [|c s IH]; intros b; simpl; [done|].
  destruct (is_space c) eqn:Hc.
  - intros [_ Hs]%andb_prop. by eapply IH.
  - intros Hs. simpl. by rewrite Hc.
Qed.

Lemma tidy_rstrip b s : tidy b s = true → tidy b (rstrip s) = true.
Proof.
  revert b. induction s as [|c s IH]; intros b; simpl; [done|].
  destruct (is_space c) eqn:Hc.
  - intros [Hcb Hs]%andb_prop. apply IH in Hs.
    destruct (rstrip s) as [|c' r]; [done|].
    cbn [tidy]. rewrite Hc, Hcb. done.
  - intros Hs. apply IH in Hs.
    destruct (rstrip s) as [|c' r]; cbn [tidy]; by rewrite Hc.
Qed.

Lemma all_kept_lower s :
  all_chars is_kept s = true → all_chars is_kept (lower s) = true.
Proof.
  induction s as [|c s IH]; simpl; [done|].
  intros [Hc Hs]%andb_prop.
  by rewrite (proj2 (proj2 (lower_char_facts c)) Hc), IH.
Qed.

Lemma all_kept_sub_spaces_from b s :
  all_chars is_kept s = true → all_chars is_kept (sub_spaces_from b s) = true.
Proof.
  revert b. induction s as [|c s IH]; intros b; simpl; [done|].
  intros [Hc Hs]%andb_prop.
  destruct (is_space c), b; simpl; rewrite ?Hc; by apply IH.
Qed.

Lemma all_kept_lstrip s :
  all_chars is_kept s = true → all_chars is_kept (lstrip s) = true.
Proof.
  induction s as [|c s IH]; simpl; [done|].
  intros [Hc Hs]%andb_prop.
  destruct (is_space c); [by apply IH|]. simpl. by rewrite Hc.
Qed.

Lemma all_kept_rstrip s :
  all_chars is_kept s = true → all_chars is_kept (rstrip s) = true.
Proof.
  induction s as [|c s IH]; simpl; [done|].
  intros [Hc Hs]%andb_prop. apply IH in Hs.
  destruct (rstrip s) as [|c' r].
  - destruct (is_space c); simpl; [done|]. by rewrite Hc.
  - cbn [all_chars] in *. by rewrite Hc.
Qed.

Lemma sub_special_all_kept s : all_chars is_kept s = true → sub_special s = s.
Proof.
  induction s as [|c s IH]; simpl; [done|].
  intros [-> Hs]%andb_prop. by rewrite IH.
Qed.

Lemma all_kept_sub_special s : all_chars is_kept (sub_special s) = true.
Proof.
  induction s as [|c s IH]; simpl; [done|].
  destruct (is_kept c) eqn:Hc; [|done]. simpl. by rewrite Hc.
Qed.

Lemma preprocess_text_unfold s :
  preprocess_text s = sub_special (strip (sub_spaces (lower s))).
Proof. by destruct s. Qed.

(** The normalizer is idempotent on the texts from which its last step
    deletes nothing. *)
Lemma preprocess_text_idempotent_no_special s :
  all_chars is_kept s = true →
  preprocess_text (preprocess_text s) = preprocess_text s.
Proof.
  intros Hs. rewrite !preprocess_text_unfold.
  set (t := strip (sub_spaces (lower s))).
  assert (all_chars is_kept t = true) as Ht.
  { apply all_kept_lstrip, all_kept_rstrip, all_kept_sub_spaces_from,
      all_kept_lower, Hs. }
  rewrite (sub_special_all_kept t Ht).
  assert (lower t = t) as ->.
  { unfold t, sub_spaces. by rewrite lower_strip, lower_sub_spaces_from, lower_lower. }
  assert (sub_spaces t = t) as ->.
  { apply sub_spaces_from_tidy, (tidy_weaken true), (tidy_lstrip false), tidy_rstrip,
      tidy_sub_spaces_from. }
  assert (strip t = t) as -> by apply strip_strip.
  by apply sub_special_all_kept.
Qed.

(** Hence a second application always reaches a fixed point. *)
Lemma preprocess_text_twice_fixed s :
  preprocess_text (preprocess_text (preprocess_text s))
  = preprocess_text (preprocess_text s).
Proof.
  apply preprocess_text_idempotent_no_special.
  rewrite preprocess_text_unfold. apply all_kept_sub_special.
Qed.

(** C7: [preprocess_text] is not idempotent. White space is collapsed and
    trimmed before the special characters are deleted, so the white space on
    both sides of a deleted character stays: "a , b" gives "a  b", with two
    spaces, which a second application turns into "a b". *)
Theorem preprocess_text_not_idempotent :
  preprocess_text "a , b" = "a  b"
  ∧ tidy false (preprocess_text "a , b") = false
  ∧ preprocess_text (preprocess_text "a , b") = "a b"
  ∧ preprocess_text (preprocess_text "a , b") ≠ preprocess_text "a , b".
Proof. do 3 (split; [reflexivity|]). discriminate. Qed.

(** ** The scorers against the formulas *)

Lemma float_table_exact : forallb float_row_exact (Z.of_nat <$> seq 0 101) = true.
Proof. vm_compute. reflexivity. Qed.

Lemma float_exact_facts cs :
  (0 ≤ cs ≤ 100)%Z →
  let x := PyNum.mul (PyInt cs) (PyFloat PyNum.f0_8) in
  (∀ ts, (0 ≤ ts ≤ 100)%Z → PyNum.gt x (PyInt ts) = (5 * ts <? 4 * cs)%Z)
  ∧ (∀ kb, kb ∈ bonus_values →
       let d := (5 * PyNum.scaled (PyNum.add x (PyInt kb))
                 - (4 * cs + 5 * kb) * PyNum.units)%Z in
       (Z.abs d * 2 ^ 40 ≤ 5 * PyNum.units)%Z
       ∧ ((cs mod 5 = 0)%Z → d = 0%Z)).
Proof.
  intros Hcs x.
  pose proof (forallb_range _ 100 float_table_exact cs Hcs) as Hrow.
  unfold float_row_exact in Hrow. cbv zeta in Hrow. fold x in Hrow.
  apply andb_prop in Hrow as [Hgt Hkb]. split.
  - intros ts Hts.
    pose proof (forallb_range _ 100 Hgt ts Hts) as H.
    by apply Bool.eqb_prop in H.
  - intros kb Hin%list_elem_of_In d.
    rewrite forallb_forall in Hkb. specialize (Hkb kb Hin).
    apply andb_prop in Hkb as [Hle Hex]. apply Z.leb_le in Hle.
    split; [exact Hle|]. intros Hmod.
    apply orb_prop in Hex as [Hex|Hex].
    + apply negb_true_iff, Z.eqb_neq in Hex. done.
    + by apply Z.eqb_eq in Hex.
Qed.

(** The post score against exact arithmetic: five times its exact value
    against five times [max(ts, cs * 4/5) + min(km * 10, 30)]. *)
Lemma post_formula_exact ts cs km :
  (0 ≤ ts ≤ 100)%Z → (0 ≤ cs ≤ 100)%Z → (0 ≤ km)%Z →
  let s := PyNum.add
             (PyNum.max (PyInt ts) (PyNum.mul (PyInt cs) (PyFloat PyNum.f0_8)))
             (PyInt (PyNum.min_int (km * 10) 30)) in
  let a := (Z.max (5 * ts) (4 * cs) + 5 * Z.min (km * 10) 30)%Z in
  (Z.abs (5 * PyNum.scaled s - a * PyNum.units) * 2 ^ 40 ≤ 5 * PyNum.units)%Z
  ∧ ((a mod 5 = 0)%Z → (5 * PyNum.scaled s = a * PyNum.units)%Z).
Proof.
  intros Hts Hcs Hkm s a.
  destruct (float_exact_facts cs Hcs) as [Hgt Hkb].
  pose proof (bonus_cases km Hkm) as Hb.
  specialize (Hkb _ Hb). cbv zeta in Hkb. destruct Hkb as [Hle Hex].
  pose proof units_pos as HU.
  subst s a. unfold PyNum.max. rewrite (Hgt ts Hts).
  rewrite min_int_min in *.
  destruct (Z.ltb_spec (5 * ts) (4 * cs)) as [Hlt|Hge].
  - rewrite Z.max_r by lia. split; [exact Hle|]. intros Hmod.
    assert (cs mod 5 = 0)%Z as Hcs5.
    { apply Z.mod_divide in Hmod; [|lia]. destruct Hmod as [q Hq].
      apply Z.mod_divide; [lia|].
      exists (cs - q + Z.min (km * 10) 30)%Z. lia. }
    specialize (Hex Hcs5). lia.
  - rewrite Z.max_l by lia. cbn [PyNum.add PyNum.scaled].
    replace (5 * ((ts + Z.min (km * 10) 30) * PyNum.units)
             - (5 * ts + 5 * Z.min (km * 10) 30) * PyNum.units)%Z with 0%Z by ring.
    split; [simpl; lia|]. intros _. ring.
Qed.

(** Scores and rational numbers. *)
Section RationalFacts.
Import QArith_base.
Local Close Scope Q_scope.

Lemma close_fifths n a :
  Spec.close n (a # 5)
  ↔ (Z.abs (5 * PyNum.scaled n - a * PyNum.units) * 2 ^ 40 ≤ 5 * PyNum.units)%Z.
Proof.
  unfold Spec.close, Spec.value. generalize (PyNum.scaled n). intros s.
  pose proof units_pos as HU. revert HU. generalize PyNum.units. intros U HU.
  unfold Qle, Qminus, Qplus, Qopp. cbn [Qnum Qden Qabs.Qabs].
  rewrite Pos2Z.inj_mul, Z2Pos.id by done.
  change (Z.pos (2 ^ 40)) with (2 ^ 40)%Z. change (Z.pos 5) with 5%Z.
  replace (s * 5 + - a * U)%Z with (5 * s - a * U)%Z by ring.
  lia.
Qed.

Lemma exactly_fifths n a z :
  (5 * PyNum.scaled n = a * PyNum.units)%Z → Spec.whole (a # 5) z →
  PyNum.value_eq n (PyInt z).
Proof.
  unfold Spec.whole, PyNum.value_eq, Qeq. cbn [Qnum Qden inject_Z PyNum.scaled].
  intros Hn Ha. pose proof units_pos. nia.
Qed.

Lemma whole_fifths a z : Spec.whole (a # 5) z → (a mod 5 = 0)%Z.
Proof.
  unfold Spec.whole, Qeq. cbn [Qnum Qden inject_Z]. intros H.
  apply Z.mod_divide; [lia|]. exists z. lia.
Qed.

Lemma post_formula_fifths ts cs kb :
  (Qminmax.Qmax (inject_Z ts) (inject_Z cs * 0.8) + inject_Z kb
   == (Z.max (5 * ts) (4 * cs) + 5 * kb) # 5)%Q.
Proof.
  destruct (Z.le_gt_cases (4 * cs) (5 * ts)) as [H|H].
  - rewrite Qminmax.Q.max_l, Z.max_l by (try (unfold Qle; simpl); lia).
    unfold Qeq. simpl. lia.
  - rewrite Qminmax.Q.max_r, Z.max_r by (try (unfold Qle; simpl); lia).
    unfold Qeq. simpl. lia.
Qed.

Lemma close_eq n q1 q2 : (q1 == q2)%Q → Spec.close n q1 → Spec.close n q2.
Proof. unfold Spec.close. by intros ->. Qed.

Lemma whole_eq q1 q2 z : (q1 == q2)%Q → Spec.whole q1 z → Spec.whole q2 z.
Proof. unfold Spec.whole. by intros ->. Qed.

End RationalFacts.

(** The normalizer of the specification: where the engine's deletes nothing
    the two agree; its output is made of kept characters, in lower case,
    with single spaces between words only, and it is idempotent. *)
Lemma normalize_agrees s :
  all_chars is_kept s = true → preprocess_text s = Spec.normalize s.
Proof.
  intros Hs. rewrite preprocess_text_unfold. unfold Spec.normalize.
  rewrite (sub_special_all_kept (lower s)) by by apply all_kept_lower.
  apply sub_special_all_kept.
  by apply all_kept_lstrip, all_kept_rstrip, all_kept_sub_spaces_from, all_kept_lower.
Qed.

Lemma lower_sub_special_lower s :
  lower (sub_special (lower s)) = sub_special (lower s).
Proof.
  induction s as [|c s IH]; simpl; [done|].
  destruct (is_kept (lower_char c)); simpl; [|done].
  by rewrite IH, (proj1 (lower_char_facts c)).
Qed.

Lemma normalize_collapsed s :
  all_chars is_kept (Spec.normalize s) = true
  ∧ lower (Spec.normalize s) = Spec.normalize s
  ∧ tidy true (Spec.normalize s) = true
  ∧ strip (Spec.normalize s) = Spec.normalize s.
Proof.
  unfold Spec.normalize. split; [|split; [|split]].
  - apply all_kept_lstrip, all_kept_rstrip, all_kept_sub_spaces_from,
      all_kept_sub_special.
  - unfold sub_spaces.
    by rewrite lower_strip, lower_sub_spaces_from, lower_sub_special_lower.
  - apply (tidy_lstrip false), tidy_rstrip, tidy_sub_spaces_from.
  - apply strip_strip.
Qed.

Lemma normalize_idempotent s :
  Spec.normalize (Spec.normalize s) = Spec.normalize s.
Proof.
  destruct (normalize_collapsed s) as (Hk & Hl & Ht & Hs).
  unfold Spec.normalize at 1. rewrite Hl, (sub_special_all_kept _ Hk).
  unfold sub_spaces.
  rewrite (sub_spaces_from_tidy false) by by apply (tidy_weaken true).
  exact Hs.
Qed.

(** C1: the scorers follow the formulas of section 4.3 wherever
    [preprocess_text] is the normalizer of section 4.1, which it is on every
    text from which it deletes no character. There the score of a post is
    [max(title_score, content_score * 0.8) + min(keyword_matches * 10, 30)]
    computed in binary64: within [2^-40] of the formula's value, and equal
    to it when that value is a whole number; the score of a content item is
    the whole number [partial_ratio + min(keyword_matches * 15, 40)]; the
    component scores and the keyword count are those of the formulas. Where
    [preprocess_text] deletes a character between two spaces it leaves both
    spaces, and the count differs: for the question "machine learning" and
    the title "Machine & Learning" the engine matches 2 keywords ("machine",
    "learning") against "machine  learning", the formula 3 (also "machine
    learning"), and the bonus of the content item is 30 instead of 40. *)
Theorem scorers_follow_formulas_but_for_normalizer partial_ratio list_set :
  ratio_in_range partial_ratio →
  enumerates_set list_set →
  (∀ s, all_chars is_kept s = true → preprocess_text s = Spec.normalize s)
  ∧ (∀ (Q : string) (P : record),
       let title := Spec.field P "title" in
       let text := Spec.field P "title" +:+ " " +:+ Spec.field P "content" in
       let e := post_entry partial_ratio list_set (preprocess_text Q) Q P in
       preprocess_text Q = Spec.normalize Q →
       preprocess_text title = Spec.normalize title →
       preprocess_text text = Spec.normalize text →
       Spec.close (pm_score e) (Spec.post_final_score partial_ratio Q P)
       ∧ ∀ z, Spec.whole (Spec.post_final_score partial_ratio Q P) z →
              PyNum.value_eq (pm_score e) (PyInt z))
  ∧ (∀ (Q : string) (C : record),
       let text := Spec.field C "title" +:+ " " +:+ Spec.field C "description" in
       preprocess_text Q = Spec.normalize Q →
       preprocess_text text = Spec.normalize text →
       cm_score (content_entry partial_ratio list_set (preprocess_text Q) Q C)
       = PyInt (Spec.content_final_score partial_ratio Q C))
  ∧ (let Q := "machine learning" in
     let p := post_entry partial_ratio list_set (preprocess_text Q) Q
                ampersand_record in
     let c := content_entry partial_ratio list_set (preprocess_text Q) Q
                ampersand_record in
     preprocess_text "Machine & Learning " = "machine  learning"
     ∧ Spec.normalize "Machine & Learning " = "machine learning"
     ∧ pm_keyword_matches p = 2%Z
     ∧ cm_keyword_matches c = 2%Z
     ∧ Spec.keyword_matches Q (Spec.normalize "Machine & Learning ") = 3%Z
     ∧ cm_score c
       = PyInt (partial_ratio "machine learning" "machine  learning" + 30)
     ∧ Spec.content_final_score partial_ratio Q ampersand_record
       = (partial_ratio "machine learning" "machine learning" + 40)%Z).
Proof.
  intros Hrange Hset. split; [exact normalize_agrees|]. split; [|split].
  - intros Q P title text e HQ Htitle Htext. subst title text.
    set (title := Spec.field P "title") in *.
    set (text := title +:+ " " +:+ Spec.field P "content") in *.
    destruct (post_entry_score partial_ratio list_set (preprocess_text Q) Q P)
      as [Hs Hkm]. fold e in Hs, Hkm.
    assert (pm_title_score e
            = partial_ratio (Spec.normalize Q) (Spec.normalize title)) as Ht.
    { unfold e, post_entry. cbn [pm_title_score].
      rewrite get_or_field. fold title. by rewrite HQ, Htitle. }
    assert (pm_content_score e
            = partial_ratio (Spec.normalize Q) (Spec.normalize text)) as Hc.
    { unfold e, post_entry. cbn [pm_content_score].
      rewrite !get_or_field. fold title text. by rewrite HQ, Htext. }
    assert (pm_keyword_matches e
            = Spec.keyword_matches Q (Spec.normalize text)) as Hk.
    { unfold e, post_entry. cbn [pm_keyword_matches].
      rewrite (keyword_count _ Hset), !get_or_field. fold title text.
      by rewrite Htext. }
    destruct (post_formula_exact (pm_title_score e) (pm_content_score e)
                (pm_keyword_matches e)) as [Hclose Hexact];
      [apply Hrange|apply Hrange|done|].
    cbv zeta in Hclose, Hexact. rewrite <- Hs in Hclose, Hexact.
    rewrite Ht, Hc, Hk in Hclose, Hexact.
    pose proof (post_formula_fifths
                  (partial_ratio (Spec.normalize Q) (Spec.normalize title))
                  (partial_ratio (Spec.normalize Q) (Spec.normalize text))
                  (Z.min (Spec.keyword_matches Q (Spec.normalize text) * 10) 30))
      as Hq.
    split.
    + eapply close_eq; [symmetry; exact Hq|]. by apply close_fifths.
    + intros z Hz. eapply whole_eq in Hz; [|exact Hq].
      eapply exactly_fifths; [|exact Hz]. apply Hexact. by eapply whole_fifths.
  - intros Q C text HQ Htext. subst text.
    set (text := Spec.field C "title" +:+ " " +:+ Spec.field C "description") in *.
    destruct (content_entry_score partial_ratio list_set (preprocess_text Q) Q C)
      as [-> _].
    unfold content_entry. cbn [cm_keyword_matches].
    rewrite (keyword_count _ Hset), !get_or_field, min_int_min. fold text.
    by rewrite HQ, Htext.
  - cbv zeta. split; [reflexivity|]. split; [reflexivity|].
    split; [|split; [|split; [|split]]].
    + unfold post_entry. cbn [pm_keyword_matches].
      rewrite (keyword_count _ Hset). by vm_compute.
    + unfold content_entry. cbn [cm_keyword_matches].
      rewrite (keyword_count _ Hset). by vm_compute.
    + by vm_compute.
    + unfold content_entry. cbn [cm_score].
      rewrite (keyword_count _ Hset). by vm_compute.
    + by vm_compute.
Qed.

Lemma scorers_follow_formulas_but_for_normalizer_witness :
  ratio_in_range substring_ratio
  ∧ enumerates_set first_seen
  ∧ (preprocess_text "pandas" = Spec.normalize "pandas"
     ∧ preprocess_text "pandas. is great" = Spec.normalize "pandas. is great"
     ∧ preprocess_text "Using pandas How to load a CSV into a dataframe"
       = Spec.normalize "Using pandas How to load a CSV into a dataframe")
  ∧ Spec.whole (Spec.post_final_score substring_ratio "pandas" pandas_post) 110
  ∧ PyNum.value_eq
      (pm_score (post_entry substring_ratio first_seen (preprocess_text "pandas")
                   "pandas" pandas_post))
      (PyInt 110)
  ∧ Spec.whole (Spec.post_final_score substring_ratio "pandas" untitled_post) 90
  ∧ PyNum.value_eq
      (pm_score (post_entry substring_ratio first_seen (preprocess_text "pandas")
                   "pandas" untitled_post))
      (PyInt 90)
  ∧ cm_score (content_entry substring_ratio first_seen (preprocess_text "pandas")
                "pandas" pandas_item)
    = PyInt 115.
Proof.
  destruct (scorers_follow_formulas_but_for_normalizer substring_ratio first_seen
              substring_ratio_in_range first_seen_enumerates)
    as (Hn & Hp & Hc & _).
  assert (Spec.whole (Spec.post_final_score substring_ratio "pandas" pandas_post) 110)
    as H110 by reflexivity.
  assert (Spec.whole (Spec.post_final_score substring_ratio "pandas" untitled_post) 90)
    as H90 by reflexivity.
  split; [exact substring_ratio_in_range|].
  split; [exact first_seen_enumerates|].
  split; [split; [|split]; apply Hn; reflexivity|].
  split; [exact H110|].
  split; [exact (proj2 (Hp "pandas" pandas_post eq_refl eq_refl eq_refl) 110%Z H110)|].
  split; [exact H90|].
  split; [exact (proj2 (Hp "pandas" untitled_post eq_refl eq_refl eq_refl) 90%Z H90)|].
  exact (Hc "pandas" pandas_item eq_refl eq_refl).
Defined.

(** * Further properties *)

(** ** More on strings *)

Lemma app_cons c s t : String c s +:+ t = String c (s +:+ t).
Proof. reflexivity. Qed.

Lemma app_empty_l s : EmptyString +:+ s = s.
Proof. reflexivity. Qed.

Lemma app_empty_r s : s +:+ EmptyString = s.
Proof. induction s as [|c s IH]; [done|]. by rewrite app_cons, IH. Qed.

Lemma app_assoc_str a b c : (a +:+ b) +:+ c = a +:+ (b +:+ c).
Proof. induction a as [|x a IH]; [done|]. by rewrite !app_cons, IH. Qed.

Lemma length_app_str a b :
  String.length (a +:+ b) = String.length a + String.length b.
Proof. induction a as [|x a IH]; [done|]. rewrite app_cons. simpl. by rewrite IH. Qed.

Lemma prefix_app k b : String.prefix k (k +:+ b) = true.
Proof.
  induction k as [|c k IH]; [by destruct b|].
  rewrite app_cons. simpl. destruct (ascii_dec c c); [done|congruence].
Qed.

Lemma prefix_inv k s : String.prefix k s = true → ∃ b, s = k +:+ b.
Proof.
  revert s. induction k as [|c k IH]; intros s; [by exists s|].
  destruct s as [|d s]; [done|]. simpl.
  destruct (ascii_dec c d) as [->|]; [|done].
  intros [b ->]%IH. by exists b.
Qed.

Lemma contains_prefix s k : String.prefix k s = true → contains s k = true.
Proof.
  intros H. destruct s as [|c s].
  - change (contains EmptyString k) with (String.prefix k EmptyString || false).
    by rewrite H.
  - change (contains (String c s) k)
      with (String.prefix k (String c s) || contains s k).
    by rewrite H.
Qed.

Lemma contains_app a k b : contains (a +:+ k +:+ b) k = true.
Proof.
  induction a as [|c a IH].
  - rewrite app_empty_l. apply contains_prefix, prefix_app.
  - rewrite app_cons.
    change (contains (String c (a +:+ k +:+ b)) k)
      with (String.prefix k (String c (a +:+ k +:+ b)) || contains (a +:+ k +:+ b) k).
    rewrite IH. apply orb_true_r.
Qed.

Lemma contains_inv s k : contains s k = true → ∃ a b, s = a +:+ k +:+ b.
Proof.
  induction s as [|c s IH].
  - change (contains EmptyString k) with (String.prefix k EmptyString || false).
    rewrite orb_false_r. intros [b ->]%prefix_inv. by exists EmptyString, b.
  - change (contains (String c s) k)
      with (String.prefix k (String c s) || contains s k).
    intros [H|H]%orb_prop.
    + apply prefix_inv in H as [b ->]. by exists EmptyString, b.
    + apply IH in H as (a & b & ->). by exists (String c a), b.
Qed.

(** ** More on the normalizer *)

Lemma char_table_kept :
  forallb (λ n, let c := ascii_of_nat n in
                Bool.eqb (is_kept (lower_char c)) (is_kept c)
                && Bool.eqb (is_word (lower_char c)) (is_word c))
    (seq 0 256) = true.
Proof. vm_compute. reflexivity. Qed.

Lemma lower_char_classes c :
  is_kept (lower_char c) = is_kept c ∧ is_word (lower_char c) = is_word c.
Proof.
  revert c. apply all_ascii. intros n Hn.
  pose proof char_table_kept as H. rewrite forallb_forall in H.
  specialize (H n ltac:(apply in_seq; lia)). cbv zeta in H.
  apply andb_prop in H as [H1 H2].
  by apply Bool.eqb_prop in H1, H2.
Qed.

Lemma lower_sub_special s : lower (sub_special s) = sub_special (lower s).
Proof.
  induction s as [|c s IH]; simpl; [done|].
  rewrite (proj1 (lower_char_classes c)).
  destruct (is_kept c); simpl; by rewrite IH.
Qed.

Lemma length_lower s : String.length (lower s) = String.length s.
Proof. induction s as [|c s IH]; simpl; [done|]. by rewrite IH. Qed.

Lemma length_sub_spaces_from b s :
  String.length (sub_spaces_from b s) ≤ String.length s.
Proof.
  revert b. induction s as [|c s IH]; intros b; simpl; [done|].
  pose proof (IH true). pose proof (IH false).
  destruct (is_space c), b; simpl; lia.
Qed.

Lemma length_lstrip s : String.length (lstrip s) ≤ String.length s.
Proof.
  induction s as [|c s IH]; simpl; [done|].
  destruct (is_space c); simpl; lia.
Qed.

Lemma length_rstrip s : String.length (rstrip s) ≤ String.length s.
Proof.
  induction s as [|c s IH]; simpl; [done|].
  destruct (rstrip s); [destruct (is_space c)|]; simpl in *; lia.
Qed.

Lemma length_sub_special s : String.length (sub_special s) ≤ String.length s.
Proof.
  induction s as [|c s IH]; simpl; [done|].
  destruct (is_kept c); simpl; lia.
Qed.

Lemma all_space_lower s : all_space (lower s) = all_space s.
Proof.
  induction s as [|c s IH]; simpl; [done|].
  by rewrite IH, (proj1 (proj2 (lower_char_facts c))).
Qed.

Lemma all_space_sub_spaces_from b s :
  all_space s = true → all_space (sub_spaces_from b s) = true.
Proof.
  revert b. induction s as [|c s IH]; intros b; simpl; [done|].
  intros [-> Hs]%andb_prop. destruct b; simpl; by apply IH.
Qed.

(** X1: the text that [preprocess_text] returns holds only word characters,
    white space and the four signs - . ? !, holds no upper-case letter, is
    never longer than the input, and is empty when the input is empty or
    white space only. *)
Theorem preprocess_text_output s :
  all_chars is_kept (preprocess_text s) = true
  ∧ lower (preprocess_text s) = preprocess_text s
  ∧ String.length (preprocess_text s) ≤ String.length s
  ∧ (all_space s = true → preprocess_text s = EmptyString).
Proof.
  rewrite preprocess_text_unfold. split; [apply all_kept_sub_special|].
  split; [|split].
  - unfold sub_spaces.
    by rewrite lower_sub_special, lower_strip, lower_sub_spaces_from, lower_lower.
  - pose proof (length_sub_special (strip (sub_spaces (lower s)))).
    pose proof (length_lstrip (rstrip (sub_spaces (lower s)))).
    pose proof (length_rstrip (sub_spaces (lower s))).
    pose proof (length_sub_spaces_from false (lower s)).
    pose proof (length_lower s). unfold strip, sub_spaces in *. lia.
  - intros Hs. unfold strip.
    rewrite rstrip_all_space; [done|].
    apply all_space_sub_spaces_from. by rewrite all_space_lower.
Qed.

Lemma preprocess_text_output_witness :
  all_space (" " +:+ newline) = true
  ∧ preprocess_text (" " +:+ newline) = EmptyString.
Proof.
  split; [reflexivity|].
  exact (proj2 (proj2 (proj2 (preprocess_text_output (" " +:+ newline)))) eq_refl).
Defined.

(** X2: on a text from which the last step deletes nothing, a second
    application of [preprocess_text] changes nothing; on every text the
    second application reaches a fixed point. *)
Theorem preprocess_text_settles :
  (∀ s, all_chars is_kept s = true →
        preprocess_text (preprocess_text s) = preprocess_text s)
  ∧ (∀ s, preprocess_text (preprocess_text (preprocess_text s))
          = preprocess_text (preprocess_text s)).
Proof.
  split; [apply preprocess_text_idempotent_no_special|].
  apply preprocess_text_twice_fixed.
Qed.

Lemma preprocess_text_settles_witness :
  all_chars is_kept "What  is   Pandas?" = true
  ∧ preprocess_text (preprocess_text "What  is   Pandas?")
    = preprocess_text "What  is   Pandas?".
Proof.
  split; [reflexivity|].
  exact (proj1 preprocess_text_settles "What  is   Pandas?" eq_refl).
Defined.

(** ** The keyword extractor *)

Lemma all_chars_app P a b :
  all_chars P (a +:+ b) = all_chars P a && all_chars P b.
Proof.
  induction a as [|c a IH]; [done|].
  rewrite app_cons. simpl. by rewrite IH, andb_assoc.
Qed.

Lemma word_runs_from_spec cur s w :
  all_chars is_word cur = true →
  w ∈ word_runs_from cur s →
  all_chars is_word w = true ∧ ∃ a b, cur +:+ s = a +:+ w +:+ b.
Proof.
  revert cur. induction s as [|c s IH]; intros cur Hcur; simpl.
  - destruct (truthy cur); [|by intros ?%elem_of_nil].
    intros ->%list_elem_of_singleton. split; [done|].
    exists EmptyString, EmptyString. by rewrite app_empty_r.
  - destruct (is_word c) eqn:Hc.
    + intros Hw. apply IH in Hw as [Hw (a & b & E)].
      * split; [done|]. exists a, b. by rewrite <- E, app_assoc_str.
      * rewrite all_chars_app, Hcur. simpl. by rewrite Hc.
    + rewrite elem_of_app. intros [Hw|Hw].
      * destruct (truthy cur); [|by apply elem_of_nil in Hw].
        apply list_elem_of_singleton in Hw as ->. split; [done|].
        by exists EmptyString, (String c s).
      * apply IH in Hw as [Hw (a & b & E)]; [|done]. split; [done|].
        exists (cur +:+ String c a), b.
        rewrite app_empty_l in E. rewrite E.
        by rewrite app_assoc_str, app_cons.
Qed.

Lemma keywords_found_spec text k :
  k ∈ keywords_found text →
  contains (lower text) k = true
  ∧ (k ∈ tech_terms ∨ (4 ≤ String.length k ∧ all_chars is_word k = true)).
Proof.
  unfold keywords_found. rewrite app_nil_l, elem_of_app. intros [Hk|Hk].
  - apply list_elem_of_filter in Hk as [Hin Hk]. split; [|by left].
    by destruct (contains (lower text) k).
  - apply elem_of_take in Hk as (i & Hk & _).
    apply list_elem_of_lookup_2 in Hk.
    apply list_elem_of_filter in Hk as [Hlen Hk].
    apply word_runs_from_spec in Hk as [Hw (a & b & E)]; [|done].
    rewrite app_empty_l in E. split; [|by right].
    rewrite E. apply contains_app.
Qed.

Lemma keywords_found_length text : length (keywords_found text) ≤ 33.
Proof.
  unfold keywords_found. rewrite app_nil_l, length_app, length_take.
  pose proof (length_filter (λ term, contains (lower text) term) tech_terms) as H.
  change (length tech_terms) with 23 in H. lia.
Qed.

(** X3: [extract_keywords] returns at most 33 keywords, without repetition;
    each one is a non-empty string that occurs in the lower-cased text and is
    either a term of the vocabulary or a run of at least four word
    characters. *)
Theorem extract_keywords_sound list_set :
  enumerates_set list_set →
  ∀ text,
    let keywords := extract_keywords list_set text in
    NoDup keywords
    ∧ length keywords ≤ 33
    ∧ ∀ k, k ∈ keywords →
        truthy k = true
        ∧ contains (lower text) k = true
        ∧ (k ∈ tech_terms ∨ (4 ≤ String.length k ∧ all_chars is_word k = true)).
Proof.
  intros Hset text keywords. subst keywords. unfold extract_keywords.
  destruct (Hset (keywords_found text)) as [Hnd Hel].
  split; [done|]. split.
  - etrans; [|apply keywords_found_length].
    apply submseteq_length, NoDup_submseteq; [done|]. intros x. apply Hel.
  - intros k Hk%Hel. split; [by eapply keywords_found_truthy|].
    by apply keywords_found_spec.
Qed.

Lemma extract_keywords_sound_witness :
  enumerates_set first_seen
  ∧ extract_keywords first_seen "Plot a CSV with Pandas, plot it!"
    = ["csv"; "with"; "pandas"; "plot"]
  ∧ NoDup (extract_keywords first_seen "Plot a CSV with Pandas, plot it!").
Proof.
  split; [exact first_seen_enumerates|]. split; [by vm_compute|].
  exact (proj1 (extract_keywords_sound first_seen first_seen_enumerates
                  "Plot a CSV with Pandas, plot it!")).
Defined.

(** ** Letter case *)

Lemma truthy_lower s : truthy (lower s) = truthy s.
Proof. by destruct s. Qed.

Lemma keywords_found_lower text : keywords_found (lower text) = keywords_found text.
Proof. unfold keywords_found. by rewrite lower_lower. Qed.

Lemma preprocess_text_lower text : preprocess_text (lower text) = preprocess_text text.
Proof. rewrite !preprocess_text_unfold. by rewrite lower_lower. Qed.

(** X4: the payload of [get_answer] does not depend on the letter case of
    the question: the question and its lower-case form get the same answer
    and the same links. *)
Theorem get_answer_ignores_case partial_ratio list_set self question :
  get_answer partial_ratio list_set self (lower question)
  = get_answer partial_ratio list_set self question.
Proof.
  assert (∀ t, find_similar_posts partial_ratio list_set self (lower question) t
               = find_similar_posts partial_ratio list_set self question t) as Hposts.
  { intros t. rewrite !find_similar_posts_eq. do 3 f_equal.
    apply list_fmap_ext. intros _ r _. unfold post_entry, extract_keywords.
    by rewrite preprocess_text_lower, keywords_found_lower. }
  assert (∀ t, find_relevant_content partial_ratio list_set self (lower question) t
               = find_relevant_content partial_ratio list_set self question t) as Hitems.
  { intros t. rewrite !find_relevant_content_eq. do 3 f_equal.
    apply list_fmap_ext. intros _ r _. unfold content_entry, extract_keywords.
    by rewrite preprocess_text_lower, keywords_found_lower. }
  assert (blank (lower question) = blank question) as Hb
    by (by rewrite !blank_all_space, all_space_lower).
  destruct (blank question) eqn:Hq.
  - by rewrite !get_answer_blank.
  - rewrite !get_answer_not_blank by done. by rewrite Hposts, Hitems.
Qed.

Example get_answer_ignores_case_sample :
  lower "How do I PLOT with Pandas?" = "how do i plot with pandas?"
  ∧ get_answer substring_ratio first_seen sample_engine "How do I PLOT with Pandas?"
    = get_answer substring_ratio first_seen sample_engine "how do i plot with pandas?".
Proof. split; [reflexivity|]. by vm_compute. Qed.

(** ** Similarity and the thresholds *)

Lemma float_table_more : forallb float_row_more (Z.of_nat <$> seq 0 101) = true.
Proof. vm_compute. reflexivity. Qed.

Lemma float_more_facts cs :
  (0 ≤ cs ≤ 100)%Z →
  let x := PyNum.mul (PyInt cs) (PyFloat PyNum.f0_8) in
  PyNum.scaled (PyNum.add x (PyInt 0)) = PyNum.scaled x
  ∧ ((cs < 38)%Z →
     (PyNum.scaled (PyNum.add x (PyInt 30)) < 60 * PyNum.units)%Z).
Proof.
  intros Hcs x.
  pose proof (forallb_range _ 100 float_table_more cs Hcs) as Hrow.
  unfold float_row_more in Hrow. cbv zeta in Hrow. fold x in Hrow.
  apply andb_prop in Hrow as [H0 Hlow]. apply Z.eqb_eq in H0.
  split; [done|]. intros Hlt.
  apply orb_prop in Hlow as [Hlow|Hlow]; [apply Z.leb_le in Hlow; lia|].
  by apply Z.ltb_lt in Hlow.
Qed.

Lemma elem_of_take_elem {A} (l : list A) n x : x ∈ take n l → x ∈ l.
Proof. intros (i & Hx & _)%elem_of_take. by eapply list_elem_of_lookup_2. Qed.

Lemma elem_of_find_similar_posts partial_ratio list_set self question threshold e :
  e ∈ find_similar_posts partial_ratio list_set self question threshold →
  PyNum.ge (pm_score e) (PyInt threshold) = true
  ∧ ∃ p, p ∈ discourse_posts self
         ∧ e = post_entry partial_ratio list_set (preprocess_text question) question p.
Proof.
  rewrite find_similar_posts_eq. intros He%elem_of_take_elem.
  rewrite list_sort_reverse_perm in He.
  apply list_elem_of_filter in He as [Hge He].
  apply list_elem_of_fmap in He as (p & -> & Hp).
  split; [by destruct (PyNum.ge _ _)|]. by exists p.
Qed.

Lemma elem_of_find_relevant_content partial_ratio list_set self question threshold e :
  e ∈ find_relevant_content partial_ratio list_set self question threshold →
  PyNum.ge (cm_score e) (PyInt threshold) = true
  ∧ ∃ c, c ∈ course_content self
         ∧ e = content_entry partial_ratio list_set (preprocess_text question) question c.
Proof.
  rewrite find_relevant_content_eq. intros He%elem_of_take_elem.
  rewrite list_sort_reverse_perm in He.
  apply list_elem_of_filter in He as [Hge He].
  apply list_elem_of_fmap in He as (p & -> & Hp).
  split; [by destruct (PyNum.ge _ _)|]. by exists p.
Qed.

(** X5: keyword matches alone retrieve nothing. A post returned by
    [find_similar_posts] (threshold 60) has a title similarity of at least 30
    or a content similarity of at least 38, and a content item returned by
    [find_relevant_content] (threshold 50) has a similarity of at least 10.
    Conversely a post whose title similarity is 60 or more always reaches
    the threshold, as does a content item whose similarity is 50 or more. *)
Theorem retrieval_needs_similarity partial_ratio list_set :
  ratio_in_range partial_ratio →
  ∀ self question,
    (∀ e, e ∈ find_similar_posts partial_ratio list_set self question 60 →
          pm_post e ∈ discourse_posts self
          ∧ (30 ≤ pm_title_score e ∨ 38 ≤ pm_content_score e)%Z)
    ∧ (∀ e, e ∈ find_relevant_content partial_ratio list_set self question 50 →
            cm_content e ∈ course_content self
            ∧ (10 ≤ partial_ratio (preprocess_text question)
                      (preprocess_text
                         (Spec.field (cm_content e) "title" +:+ " "
                          +:+ Spec.field (cm_content e) "description")))%Z)
    ∧ (∀ p, let e := post_entry partial_ratio list_set
                       (preprocess_text question) question p in
            (60 ≤ pm_title_score e)%Z → PyNum.ge (pm_score e) (PyInt 60) = true)
    ∧ (∀ c, let e := content_entry partial_ratio list_set
                       (preprocess_text question) question c in
            (50 ≤ partial_ratio (preprocess_text question)
                    (preprocess_text
                       (Spec.field c "title" +:+ " " +:+ Spec.field c "description")))%Z →
            PyNum.ge (cm_score e) (PyInt 50) = true).
Proof.
  intros Hrange self question. pose proof units_pos as Hu.
  split; [|split; [|split]].
  - intros e [Hge (p & Hp & ->)]%elem_of_find_similar_posts.
    split; [done|].
    set (e := post_entry _ _ _ _ p) in *.
    destruct (post_entry_score partial_ratio list_set (preprocess_text question)
                question p) as [Hs Hkm]. fold e in Hs, Hkm.
    rewrite Hs in Hge. apply ge_le in Hge.
    pose proof (Hrange (preprocess_text question)
                  (preprocess_text (get_or p "title" EmptyString +:+ " "
                                    +:+ get_or p "content" EmptyString))) as Hcs.
    change (partial_ratio _ _) with (pm_content_score e) in Hcs.
    destruct (decide (38 ≤ pm_content_score e)%Z) as [|Hlow]; [by right|]. left.
    pose proof (bonus_cases _ Hkm) as Hb.
    assert (bonus_values !! 3%nat = Some 30%Z) as H30%list_elem_of_lookup_2 by done.
    assert (PyNum.min_int (pm_keyword_matches e * 10) 30 ≤ 30)%Z as Hb30
      by (rewrite min_int_min; lia).
    destruct (float_score_facts (pm_content_score e) _ _ Hcs Hb H30 Hb30)
      as (_ & _ & _ & _ & Hmono).
    destruct (float_more_facts (pm_content_score e) Hcs) as [_ Hlt].
    specialize (Hlt ltac:(lia)).
    unfold PyNum.max in Hge.
    destruct (PyNum.gt _ (PyInt (pm_title_score e))) eqn:Hg.
    + unfold PyNum.le in Hge, Hmono. cbn [PyNum.scaled] in Hge. lia.
    + cbn [PyNum.add] in Hge. rewrite le_int, min_int_min in Hge. lia.
  - intros e [Hge (c & Hc & ->)]%elem_of_find_relevant_content.
    split; [done|].
    destruct (content_entry_score partial_ratio list_set (preprocess_text question)
                question c) as [Hs Hkm].
    rewrite Hs in Hge. apply ge_le in Hge.
    rewrite le_int, min_int_min, !get_or_field in Hge. cbn [cm_content content_entry]. lia.
  - intros p e Hts. apply ge_le.
    destruct (post_entry_score partial_ratio list_set (preprocess_text question)
                question p) as [Hs Hkm]. fold e in Hs, Hkm. rewrite Hs.
    pose proof (Hrange (preprocess_text question)
                  (preprocess_text (get_or p "title" EmptyString +:+ " "
                                    +:+ get_or p "content" EmptyString))) as Hcs.
    change (partial_ratio _ _) with (pm_content_score e) in Hcs.
    pose proof (bonus_cases _ Hkm) as Hb.
    assert (bonus_values !! 0%nat = Some 0%Z) as H0%list_elem_of_lookup_2 by done.
    assert (0 ≤ PyNum.min_int (pm_keyword_matches e * 10) 30)%Z as Hb0
      by (rewrite min_int_min; lia).
    destruct (float_score_facts (pm_content_score e) _ _ Hcs H0 Hb Hb0)
      as (_ & _ & _ & _ & Hmono).
    destruct (float_more_facts (pm_content_score e) Hcs) as [Hx _].
    unfold PyNum.max.
    destruct (PyNum.gt _ (PyInt (pm_title_score e))) eqn:Hg.
    + apply gt_lt in Hg. unfold PyNum.le in *. cbn [PyNum.scaled] in Hg |- *. nia.
    + cbn [PyNum.add]. apply le_int. lia.
  - intros c e Hs. apply ge_le.
    destruct (content_entry_score partial_ratio list_set (preprocess_text question)
                question c) as [He Hkm]. fold e in He, Hkm.
    rewrite He, !get_or_field. apply le_int. rewrite min_int_min. lia.
Qed.

Lemma retrieval_needs_similarity_witness :
  ratio_in_range substring_ratio
  ∧ (let e := post_entry substring_ratio first_seen
                (preprocess_text "pandas") "pandas" pandas_post in
     (60 ≤ pm_title_score e)%Z ∧ PyNum.ge (pm_score e) (PyInt 60) = true)
  ∧ find_relevant_content substring_ratio first_seen sample_engine "csv sql plot" 50 = [].
Proof.
  destruct (retrieval_needs_similarity substring_ratio first_seen
              substring_ratio_in_range sample_engine "pandas") as (_ & _ & Hp & _).
  split; [exact substring_ratio_in_range|]. split; [|by vm_compute].
  split; [by vm_compute|]. apply Hp. by vm_compute.
Defined.

(** ** Raising the threshold *)

Section ThresholdPrefix.
Context {A : Type} (score : A → number).

Lemma sorted_filter (P : A → Prop) `{!∀ x, Decision (P x)} l :
  StronglySorted (λ a b, PyNum.le (score b) (score a)) l →
  StronglySorted (λ a b, PyNum.le (score b) (score a)) (filter P l).
Proof.
  induction 1 as [|x l Hl IH Hx]; [constructor|].
  rewrite filter_cons. destruct (decide (P x)); [|done].
  constructor; [done|]. rewrite Forall_forall in Hx |- *.
  intros y [_ Hy]%list_elem_of_filter. by apply Hx.
Qed.

Lemma sorted_filter_ge_prefix t l :
  StronglySorted (λ a b, PyNum.le (score b) (score a)) l →
  filter (λ x, PyNum.ge (score x) (PyInt t)) l `prefix_of` l.
Proof.
  induction 1 as [|x l Hl IH Hx]; [done|].
  rewrite filter_cons. case_decide as Hge.
  - by apply prefix_cons.
  - replace (filter _ l) with (@nil A); [apply prefix_nil|].
    symmetry. apply filter_none. rewrite Forall_forall in Hx |- *.
    intros y Hy. specialize (Hx y Hy).
    destruct (PyNum.ge (score y) (PyInt t)) eqn:Hy'; [|done].
    destruct Hge. apply ge_le in Hy'. apply Is_true_true, ge_le.
    unfold PyNum.le in *. lia.
Qed.

Lemma filter_swap (P Q : A → Prop) `{!∀ x, Decision (P x), !∀ x, Decision (Q x)}
    (l : list A) :
  filter P (filter Q l) = filter Q (filter P l).
Proof. rewrite !list_filter_filter. apply list_filter_iff. intros x. tauto. Qed.

Lemma sort_filter_stricter t1 t2 l :
  (t1 ≤ t2)%Z →
  list_sort_reverse score (filter (λ x, PyNum.ge (score x) (PyInt t2)) l)
  = filter (λ x, PyNum.ge (score x) (PyInt t2))
      (list_sort_reverse score (filter (λ x, PyNum.ge (score x) (PyInt t1)) l)).
Proof.
  intros Ht.
  assert (∀ x, PyNum.ge (score x) (PyInt t2) → PyNum.ge (score x) (PyInt t1)) as Himp.
  { intros x Hx%Is_true_true%ge_le. apply Is_true_true, ge_le.
    assert (PyNum.le (PyInt t1) (PyInt t2)) as Hle by (by apply le_int).
    unfold PyNum.le in *. lia. }
  assert (∀ k : list A,
            filter (λ x, PyNum.ge (score x) (PyInt t2))
              (filter (λ x, PyNum.ge (score x) (PyInt t1)) k)
            = filter (λ x, PyNum.ge (score x) (PyInt t2)) k) as Hff.
  { intros k. rewrite list_filter_filter. apply list_filter_iff.
    intros x. split; [tauto|]. intros Hx. split; [done|by apply Himp]. }
  apply (list_sort_reverse_unique score).
  - by rewrite !list_sort_reverse_perm, Hff.
  - apply list_sort_reverse_sorted.
  - apply sorted_filter, list_sort_reverse_sorted.
  - intros v. rewrite list_sort_reverse_stable.
    rewrite (filter_swap (λ a, PyNum.scaled (score a) = v)
               (λ x, PyNum.ge (score x) (PyInt t2)) (list_sort_reverse score _)).
    rewrite list_sort_reverse_stable.
    rewrite (filter_swap (λ x, PyNum.ge (score x) (PyInt t2))
               (λ a, PyNum.scaled (score a) = v) (filter _ l)).
    by rewrite Hff.
Qed.

Lemma top_k_stricter_prefix k t1 t2 l :
  (t1 ≤ t2)%Z →
  take k (list_sort_reverse score (filter (λ x, PyNum.ge (score x) (PyInt t2)) l))
  `prefix_of`
  take k (list_sort_reverse score (filter (λ x, PyNum.ge (score x) (PyInt t1)) l)).
Proof.
  intros Ht. rewrite (sort_filter_stricter t1 t2 l Ht).
  destruct (sorted_filter_ge_prefix t2 _
              (list_sort_reverse_sorted score
                 (filter (λ x, PyNum.ge (score x) (PyInt t1)) l))) as [rest Hrest].
  rewrite Hrest at 2. rewrite take_app. by eexists.
Qed.

End ThresholdPrefix.

(** X6: a stricter threshold only cuts the ranking at its end: for
    thresholds [t1 ≤ t2], what [find_similar_posts] returns at [t2] is the
    beginning of what it returns at [t1], and likewise for
    [find_relevant_content]. *)
Theorem stricter_threshold_prefix partial_ratio list_set self question t1 t2 :
  (t1 ≤ t2)%Z →
  find_similar_posts partial_ratio list_set self question t2
  `prefix_of` find_similar_posts partial_ratio list_set self question t1
  ∧ find_relevant_content partial_ratio list_set self question t2
    `prefix_of` find_relevant_content partial_ratio list_set self question t1.
Proof.
  intros Ht. rewrite !find_similar_posts_eq, !find_relevant_content_eq.
  split; by apply top_k_stricter_prefix.
Qed.

Lemma stricter_threshold_prefix_witness :
  (60 ≤ 100)%Z
  ∧ length (find_similar_posts substring_ratio first_seen sample_engine "pandas" 100) = 2
  ∧ length (find_similar_posts substring_ratio first_seen sample_engine "pandas" 60) = 3
  ∧ find_similar_posts substring_ratio first_seen sample_engine "pandas" 100
    `prefix_of` find_similar_posts substring_ratio first_seen sample_engine "pandas" 60.
Proof.
  split; [lia|]. split; [by vm_compute|]. split; [by vm_compute|].
  exact (proj1 (stricter_threshold_prefix substring_ratio first_seen sample_engine
                  "pandas" 60 100 ltac:(lia))).
Defined.

(** ** The answer text *)

Lemma foldl_snoc_map {A B} (body : list B → A → list B) (f : A → B)
    (l : list A) (acc : list B) :
  (∀ acc x, body acc x = acc ++ [f x]) →
  foldl body acc l = acc ++ (f <$> l).
Proof.
  intros Hbody. revert acc. induction l as [|x l IH]; intros acc; simpl.
  - by rewrite app_nil_r.
  - by rewrite Hbody, IH, <- app_assoc.
Qed.

Lemma join_snoc sep l y :
  ∃ body, join sep (l ++ [y]) = body +:+ y.
Proof.
  induction l as [|x l [body IH]].
  - by exists EmptyString.
  - exists (x +:+ sep +:+ body).
    change ((x :: l) ++ [y]) with (x :: (l ++ [y])).
    destruct (l ++ [y]) as [|z rest] eqn:E; [by destruct l|].
    change (join sep (x :: z :: rest)) with (x +:+ sep +:+ join sep (z :: rest)).
    by rewrite IH, !app_assoc_str.
Qed.

Lemma join_cons_snoc sep x l y :
  ∃ body, join sep (x :: l ++ [y]) = x +:+ body +:+ y.
Proof.
  destruct (join_snoc sep l y) as [body Hb].
  exists (sep +:+ body).
  destruct (l ++ [y]) as [|z rest] eqn:E; [by destruct l|].
  change (join sep (x :: z :: rest)) with (x +:+ sep +:+ join sep (z :: rest)).
  by rewrite Hb, !app_assoc_str.
Qed.

Lemma nonempty_take {A} (l : list A) : nonempty (take 2 l) = nonempty l.
Proof. by destruct l. Qed.

Lemma generate_answer_eq question similar_posts relevant_content :
  nonempty similar_posts || nonempty relevant_content = true →
  generate_answer question similar_posts relevant_content
  = join newline (answer_parts similar_posts relevant_content).
Proof.
  intros Hne. unfold generate_answer, answer_parts. rewrite Hne. cbn [app].
  destruct (nonempty relevant_content), (nonempty similar_posts).
  - rewrite (foldl_snoc_map _ content_line)
      by (intros acc x; unfold content_line; cbv zeta; by destruct (truthy _)).
    rewrite (foldl_snoc_map _ post_line)
      by (intros acc x; unfold post_line; cbv zeta; by destruct (truthy _)).
    f_equal; cbn [app]; by rewrite <- ?app_assoc.
  - rewrite (foldl_snoc_map _ content_line)
      by (intros acc x; unfold content_line; cbv zeta; by destruct (truthy _)).
    f_equal; cbn [app]; by rewrite <- ?app_assoc.
  - rewrite (foldl_snoc_map _ post_line)
      by (intros acc x; unfold post_line; cbv zeta; by destruct (truthy _)).
    f_equal; cbn [app]; by rewrite <- ?app_assoc.
  - done.
Qed.

Lemma contains_trans a b c :
  contains a b = true → contains b c = true → contains a c = true.
Proof.
  intros (a1 & a2 & ->)%contains_inv (b1 & b2 & ->)%contains_inv.
  replace (a1 +:+ (b1 +:+ c +:+ b2) +:+ a2) with ((a1 +:+ b1) +:+ c +:+ (b2 +:+ a2))
    by (by rewrite !app_assoc_str).
  apply contains_app.
Qed.

Lemma contains_app_l a b : contains (a +:+ b) a = true.
Proof. apply (contains_app EmptyString). Qed.

Lemma contains_app_r a b : contains (a +:+ b) b = true.
Proof.
  pose proof (contains_app a b EmptyString) as H. by rewrite app_empty_r in H.
Qed.

Lemma contains_refl a : contains a a = true.
Proof. pose proof (contains_app_l a EmptyString) as H. by rewrite app_empty_r in H. Qed.

Lemma contains_join sep l p : p ∈ l → contains (join sep l) p = true.
Proof.
  induction l as [|x l IH]; [by intros ?%elem_of_nil|].
  intros Hp. destruct l as [|y l].
  - apply list_elem_of_singleton in Hp as ->. apply contains_refl.
  - change (join sep (x :: y :: l)) with (x +:+ sep +:+ join sep (y :: l)).
    apply elem_of_cons in Hp as [->|Hp].
    + apply contains_app_l.
    + eapply contains_trans; [|by apply IH].
      rewrite <- app_assoc_str. apply contains_app_r.
Qed.

Lemma generate_answer_opening question similar_posts relevant_content :
  nonempty similar_posts || nonempty relevant_content = true →
  ∃ body,
    generate_answer question similar_posts relevant_content
    = answer_opening +:+ body +:+ answer_closing.
Proof.
  intros ->%(generate_answer_eq question). unfold answer_parts.
  cbn [app]. rewrite app_assoc. apply join_cons_snoc.
Qed.

Lemma generate_answer_no_match_iff question similar_posts relevant_content :
  generate_answer question similar_posts relevant_content = no_match_answer
  ↔ similar_posts = [] ∧ relevant_content = [].
Proof.
  split.
  - intros Hfb. destruct (nonempty similar_posts || nonempty relevant_content) eqn:Hne.
    + destruct (generate_answer_opening question _ _ Hne) as [body Hb].
      rewrite Hb in Hfb.
      unfold answer_opening, no_match_answer in Hfb. rewrite !app_cons in Hfb.
      discriminate.
    + by destruct similar_posts, relevant_content.
  - by intros [-> ->].
Qed.

(** X7: [generate_answer] returns the fixed no-match text exactly when both
    result lists are empty; otherwise the answer begins with the fixed
    opening sentence and ends with the fixed pointer to the links. It never
    reads the question, and of each result list it reads the first two
    entries only. *)
Theorem generate_answer_shape question similar_posts relevant_content :
  (generate_answer question similar_posts relevant_content = no_match_answer
   ↔ similar_posts = [] ∧ relevant_content = [])
  ∧ (similar_posts ≠ [] ∨ relevant_content ≠ [] →
     ∃ body,
       generate_answer question similar_posts relevant_content
       = answer_opening +:+ body +:+ answer_closing)
  ∧ ∀ question',
      generate_answer question similar_posts relevant_content
      = generate_answer question' (take 2 similar_posts) (take 2 relevant_content).
Proof.
  split; [apply generate_answer_no_match_iff|]. split.
  - intros Hne. apply generate_answer_opening.
    destruct similar_posts, relevant_content; try done. by destruct Hne.
  - intros question'. unfold generate_answer.
    by rewrite !nonempty_take, !take_take.
Qed.

Lemma generate_answer_shape_witness :
  find_similar_posts substring_ratio first_seen sample_engine "pandas" 60 ≠ []
  ∧ ∃ body,
      generate_answer "pandas"
        (find_similar_posts substring_ratio first_seen sample_engine "pandas" 60)
        (find_relevant_content substring_ratio first_seen sample_engine "pandas" 50)
      = answer_opening +:+ body +:+ answer_closing.
Proof.
  assert (find_similar_posts substring_ratio first_seen sample_engine "pandas" 60 ≠ [])
    as Hne by (by vm_compute).
  split; [exact Hne|].
  exact (proj1 (proj2 (generate_answer_shape "pandas" _ _)) (or_introl Hne)).
Defined.

(** ** The payload *)

(** X8: when the question is not blank and no item of either corpus reaches
    its threshold (in particular when both corpora are empty), [get_answer]
    returns the fixed no-match text and no link. *)
Theorem no_match_payload partial_ratio list_set self question :
  all_space question = false →
  Forall (λ p, PyNum.ge (pm_score (post_entry partial_ratio list_set
                                     (preprocess_text question) question p))
                 (PyInt 60) = false)
    (discourse_posts self) →
  Forall (λ c, PyNum.ge (cm_score (content_entry partial_ratio list_set
                                     (preprocess_text question) question c))
                 (PyInt 50) = false)
    (course_content self) →
  get_answer partial_ratio list_set self question
  = Ok {| answer := no_match_answer; links := [] |}.
Proof.
  intros Hq Hposts Hitems.
  rewrite get_answer_not_blank by (by rewrite blank_all_space).
  rewrite find_similar_posts_eq, find_relevant_content_eq.
  rewrite (filter_none (λ e, PyNum.ge (pm_score e) (PyInt 60)))
    by (by apply Forall_fmap).
  rewrite (filter_none (λ e, PyNum.ge (cm_score e) (PyInt 50)))
    by (by apply Forall_fmap).
  reflexivity.
Qed.

Lemma no_match_payload_witness :
  all_space "zzz qqq" = false
  ∧ get_answer substring_ratio first_seen sample_engine "zzz qqq"
    = Ok {| answer := no_match_answer; links := [] |}.
Proof.
  split; [reflexivity|].
  apply no_match_payload; [reflexivity| |]; repeat constructor.
Defined.

Lemma omap_length_le {A B} (f : A → option B) (l : list A) :
  length (omap f l) ≤ length l.
Proof.
  induction l as [|x l IH]; [done|].
  change (omap f (x :: l))
    with (match f x with Some y => y :: omap f l | None => omap f l end).
  destruct (f x); simpl; lia.
Qed.

Lemma elem_of_omap_link {A} (proj : A → record) label untitled (l : list A) x :
  x ∈ omap (λ item, Spec.link_of label untitled (proj item)) l →
  ∃ item, item ∈ l
          ∧ truthy (url x) = true
          ∧ proj item !! "url" = Some (url x)
          ∧ text x = label +:+ default untitled (proj item !! "title").
Proof.
  intros (item & Hitem & Hx)%list_elem_of_omap. exists item. split; [done|].
  unfold Spec.link_of in Hx.
  destruct (proj item !! "url") as [u|]; [|done].
  destruct (truthy u) eqn:Hu; [|done]. by injection Hx as <-.
Qed.

(** X9: for a question that is not blank, every link of the payload has a
    non-empty url, which is the [url] field of a record of one of the two
    corpora, and a text made of the label of that corpus and the record's
    title; the links of all retrieved content items are there, in order and
    before any forum link: the cut to five links only ever drops forum
    links. *)
Theorem links_sound partial_ratio list_set self question :
  all_space question = false →
  ∃ p,
    get_answer partial_ratio list_set self question = Ok p
    ∧ (∀ l, l ∈ links p →
         truthy (url l) = true
         ∧ ((∃ c, c ∈ course_content self ∧ c !! "url" = Some (url l)
                  ∧ text l = "Course Material: " +:+ default "Untitled" (c !! "title"))
            ∨ (∃ r, r ∈ discourse_posts self ∧ r !! "url" = Some (url l)
                    ∧ text l = "Forum Discussion: "
                               +:+ default "Untitled Post" (r !! "title"))))
    ∧ omap (λ item, Spec.link_of "Course Material: " "Untitled" (cm_content item))
        (find_relevant_content partial_ratio list_set self question 50)
      `prefix_of` links p.
Proof.
  intros Hq. eexists. split.
  { apply get_answer_not_blank. by rewrite blank_all_space. }
  cbn [links]. unfold Spec.links_of. split.
  - intros l Hl%elem_of_take_elem. apply elem_of_app in Hl as [Hl|Hl].
    + apply (elem_of_omap_link cm_content) in Hl as (item & Hitem & Hu & Hurl & Htext).
      apply elem_of_find_relevant_content in Hitem as [_ (c & Hc & ->)].
      split; [done|]. left. by exists c.
    + apply (elem_of_omap_link pm_post) in Hl as (item & Hitem & Hu & Hurl & Htext).
      apply elem_of_find_similar_posts in Hitem as [_ (r & Hr & ->)].
      split; [done|]. right. by exists r.
  - set (content_links := omap _ (find_relevant_content _ _ _ _ _)).
    assert (length content_links ≤ 3) as Hlen.
    { unfold content_links. etrans; [apply omap_length_le|].
      rewrite find_relevant_content_eq, length_take. lia. }
    rewrite take_app, take_ge by lia. by eexists.
Qed.

Lemma links_sound_witness :
  all_space "pandas" = false
  ∧ ∃ p, get_answer substring_ratio first_seen crowded_engine "pandas" = Ok p
         ∧ length (links p) = 5
         ∧ omap (λ item, Spec.link_of "Course Material: " "Untitled" (cm_content item))
             (find_relevant_content substring_ratio first_seen crowded_engine "pandas" 50)
           `prefix_of` links p.
Proof.
  split; [reflexivity|].
  destruct (links_sound substring_ratio first_seen crowded_engine "pandas" eq_refl)
    as (p & Hp & _ & Hpre).
  exists p. split; [exact Hp|]. split; [|exact Hpre].
  rewrite get_answer_not_blank in Hp by reflexivity.
  injection Hp as <-. by vm_compute.
Defined.

(** ** Loading *)



(** ** The request handler *)

Lemma all_space_app a b : all_space (a +:+ b) = all_space a && all_space b.
Proof.
  induction a as [|c a IH]; [done|].
  rewrite app_cons. simpl. by rewrite IH, andb_assoc.
Qed.

(** X11: [extract_text_from_image] never raises; the text it returns has no
    white space at either end, and is empty when the image cannot be decoded
    or read. *)
Theorem extract_text_from_image_trimmed image_to_string base64_image :
  let extracted := extract_text_from_image image_to_string base64_image in
  strip extracted = extracted
  ∧ (image_to_string base64_image = None → extracted = EmptyString)
  ∧ (∀ t, image_to_string base64_image = Some t → all_space t = true →
          extracted = EmptyString).
Proof.
  unfold extract_text_from_image. split; [|split].
  - destruct (image_to_string base64_image); [apply strip_strip|done].
  - by intros ->.
  - intros t -> Ht. unfold strip. by rewrite rstrip_all_space.
Qed.

Lemma extract_text_from_image_trimmed_witness :
  (λ _, @None string) "aGk=" = None
  ∧ extract_text_from_image (λ _, None) "aGk=" = EmptyString
  ∧ all_space (" " +:+ newline) = true
  ∧ extract_text_from_image (λ _, Some (" " +:+ newline)) "aGk=" = EmptyString.
Proof.
  split; [reflexivity|].
  split.
  { exact (proj1 (proj2 (extract_text_from_image_trimmed (λ _, None) "aGk=")) eq_refl). }
  split; [reflexivity|].
  exact (proj2 (proj2 (extract_text_from_image_trimmed
                         (λ _, Some (" " +:+ newline)) "aGk="))
           _ eq_refl eq_refl).
Defined.

(** X12: on corpora whose records hold strings only, [process_question]
    never answers with status 500: when the engine call times out the status
    is 408, otherwise the answer is the payload that [get_answer] returns for
    the full question, with at most five links. The restriction is the type
    of [qa_engine]; a record with a value that is not a string can make the
    engine raise, and the handler then answers 500. *)
Theorem process_question_status partial_ratio list_set image_to_string
    qa_engine timed_out request :
  (timed_out = true →
   ∃ detail,
     process_question partial_ratio list_set image_to_string qa_engine timed_out request
     = HTTPException 408 detail)
  ∧ (timed_out = false →
     ∃ p,
       get_answer partial_ratio list_set qa_engine
         (full_question image_to_string request) = Ok p
       ∧ process_question partial_ratio list_set image_to_string qa_engine timed_out
           request
         = QuestionResponse (answer p) (links p)
       ∧ length (links p) ≤ 5).
Proof.
  split; intros ->; unfold process_question; [by eexists|].
  set (q := full_question image_to_string request).
  assert (∀ l : list link, (λ link, {| url := url link; text := text link |}) <$> l = l)
    as Hid.
  { intros l. induction l as [|[u t] l IH]; [done|]. simpl. by f_equal. }
  destruct (blank q) eqn:Hq.
  - rewrite (get_answer_blank _ _ _ _ Hq). eexists. split; [done|].
    split; [done|]. simpl. lia.
  - rewrite (get_answer_not_blank _ _ _ _ Hq). eexists. split; [done|].
    cbn [answer links]. rewrite Hid. split; [done|].
    unfold Spec.links_of. rewrite length_take. lia.
Qed.

Lemma process_question_status_witness :
  process_question substring_ratio first_seen (λ _, None) sample_engine false
    {| rq_question := "zzz qqq"; rq_image := None |}
  = QuestionResponse no_match_answer [].
Proof.
  destruct (process_question_status substring_ratio first_seen (λ _, None)
              sample_engine false {| rq_question := "zzz qqq"; rq_image := None |})
    as [_ H].
  destruct (H eq_refl) as (p & Hp & -> & _).
  change (full_question _ _) with "zzz qqq" in Hp.
  rewrite get_answer_not_blank in Hp by reflexivity.
  injection Hp as <-. by vm_compute.
Defined.

(** X13: text read from the image rescues a blank question. Without an
    image, with an empty image string, or when no text comes out of the
    image, the engine gets the question as it is (a blank one is then
    answered with the prompt for a valid question); when text comes out, the
    engine gets the question followed by that text, which is never blank,
    whatever the question. *)
Theorem full_question_cases image_to_string request :
  (truthy_opt (rq_image request) = false
   ∨ extract_text_from_image image_to_string
       (default EmptyString (rq_image request)) = EmptyString →
   full_question image_to_string request = rq_question request)
  ∧ (∀ img, rq_image request = Some img → truthy img = true →
       truthy (extract_text_from_image image_to_string img) = true →
       full_question image_to_string request
       = rq_question request +:+ newline +:+ newline
         +:+ "Extracted from image: "
         +:+ extract_text_from_image image_to_string img
       ∧ blank (full_question image_to_string request) = false).
Proof.
  split.
  - unfold full_question. intros [-> | ->]; [done|]. by destruct (truthy_opt _).
  - intros img Himg Ht Hocr.
    assert (full_question image_to_string request
            = rq_question request +:+ newline +:+ newline
              +:+ "Extracted from image: "
              +:+ extract_text_from_image image_to_string img) as ->.
    { unfold full_question. rewrite Himg. cbn [truthy_opt default from_option id].
      by rewrite Ht, Hocr. }
    split; [done|].
    rewrite blank_all_space, !all_space_app.
    change (all_space "Extracted from image: ") with false.
    by rewrite !andb_false_r, ?andb_false_l.
Qed.

Lemma full_question_cases_witness :
  truthy "aGk=" = true
  ∧ truthy (extract_text_from_image (λ _, Some " pandas ") "aGk=") = true
  ∧ full_question (λ _, Some " pandas ") {| rq_question := " "; rq_image := Some "aGk=" |}
    = " " +:+ newline +:+ newline +:+ "Extracted from image: pandas"
  ∧ full_question (λ _, Some " pandas ") {| rq_question := " "; rq_image := None |} = " ".
Proof.
  destruct (full_question_cases (λ _, Some " pandas ")
              {| rq_question := " "; rq_image := Some "aGk=" |}) as [_ H].
  destruct (H "aGk=" eq_refl eq_refl eq_refl) as [Hq _].
  destruct (full_question_cases (λ _, Some " pandas ")
              {| rq_question := " "; rq_image := None |}) as [H0 _].
  split; [reflexivity|]. split; [reflexivity|].
  split; [exact Hq | exact (H0 (or_introl eq_refl))].
Defined.

Lemma contains_mid a k b s : s = a +:+ k +:+ b → contains s k = true.
Proof. intros ->. apply contains_app. Qed.

Lemma content_line_mentions item :
  contains (content_line item)
    ("**" +:+ get_or (cm_content item) "title" "Untitled" +:+ "**") = true
  ∧ contains (content_line item)
      (slice_to 200 (get_or (cm_content item) "description" EmptyString)) = true.
Proof.
  unfold content_line. cbv zeta.
  destruct (truthy (get_or (cm_content item) "description" EmptyString)) eqn:Hd.
  - split.
    + apply (contains_mid (bullet +:+ " ") _
               (": " +:+ slice_to 200 (get_or (cm_content item) "description" EmptyString)
                +:+ "...")).
      by rewrite !app_assoc_str.
    + apply (contains_mid
               (bullet +:+ " **" +:+ get_or (cm_content item) "title" "Untitled" +:+ "**: ")
               _ "...").
      by rewrite !app_assoc_str.
  - split.
    + apply (contains_mid (bullet +:+ " ") _ EmptyString).
      by rewrite !app_assoc_str, app_empty_r.
    + destruct (get_or (cm_content item) "description" EmptyString); [|done].
      apply contains_prefix. by destruct (bullet +:+ _).
Qed.

Lemma post_line_mentions item :
  contains (post_line item)
    ("**" +:+ get_or (pm_post item) "title" "Untitled Post" +:+ "**") = true
  ∧ contains (post_line item)
      (before_dot (slice_to 300 (get_or (pm_post item) "content" EmptyString))) = true.
Proof.
  unfold post_line. cbv zeta.
  destruct (truthy (get_or (pm_post item) "content" EmptyString)) eqn:Hd.
  - split.
    + apply (contains_mid (bullet +:+ " ") _
               (": " +:+ before_dot
                           (slice_to 300 (get_or (pm_post item) "content" EmptyString))
                +:+ ".")).
      by rewrite !app_assoc_str.
    + apply (contains_mid
               (bullet +:+ " **" +:+ get_or (pm_post item) "title" "Untitled Post"
                +:+ "**: ")
               _ ".").
      by rewrite !app_assoc_str.
  - split.
    + apply (contains_mid (bullet +:+ " ") _ EmptyString).
      by rewrite !app_assoc_str, app_empty_r.
    + destruct (get_or (pm_post item) "content" EmptyString); [|done].
      apply contains_prefix. by destruct (bullet +:+ _).
Qed.

(** X14: the answer names what it found: for each of the first two retrieved
    content items it contains the item's title between double asterisks
    ("Untitled" without a title field) and the first 200 characters of its
    description; for each of the first two retrieved posts it contains the
    post's title ("Untitled Post" without one) and the beginning of its
    content up to the first full stop within 300 characters. *)
Theorem answer_mentions_top_results question similar_posts relevant_content :
  let answer := generate_answer question similar_posts relevant_content in
  (∀ item, item ∈ take 2 relevant_content →
     contains answer
       ("**" +:+ get_or (cm_content item) "title" "Untitled" +:+ "**") = true
     ∧ contains answer
         (slice_to 200 (get_or (cm_content item) "description" EmptyString)) = true)
  ∧ (∀ item, item ∈ take 2 similar_posts →
       contains answer
         ("**" +:+ get_or (pm_post item) "title" "Untitled Post" +:+ "**") = true
       ∧ contains answer
           (before_dot (slice_to 300 (get_or (pm_post item) "content" EmptyString)))
         = true).
Proof.
  intros answer. subst answer. split.
  - intros item Hitem.
    assert (nonempty relevant_content = true) as Hne
      by (destruct relevant_content; [by apply elem_of_nil in Hitem|done]).
    rewrite generate_answer_eq by (by rewrite Hne, orb_true_r).
    assert (contains (join newline (answer_parts similar_posts relevant_content))
              (content_line item) = true) as Hline.
    { apply contains_join. unfold answer_parts. rewrite Hne.
      rewrite !elem_of_app. right. left. right.
      apply list_elem_of_fmap. by exists item. }
    destruct (content_line_mentions item) as [Ht Hd].
    split; by eapply contains_trans.
  - intros item Hitem.
    assert (nonempty similar_posts = true) as Hne
      by (destruct similar_posts; [by apply elem_of_nil in Hitem|done]).
    rewrite generate_answer_eq by (by rewrite Hne).
    assert (contains (join newline (answer_parts similar_posts relevant_content))
              (post_line item) = true) as Hline.
    { apply contains_join. unfold answer_parts. rewrite Hne.
      rewrite !elem_of_app. right. right. left. right.
      apply list_elem_of_fmap. by exists item. }
    destruct (post_line_mentions item) as [Ht Hd].
    split; by eapply contains_trans.
Qed.

Lemma answer_mentions_top_results_witness :
  cm_content
    <$> take 2 (find_relevant_content substring_ratio first_seen sample_engine "pandas" 50)
  = [pandas_item]
  ∧ contains
      (generate_answer "pandas"
         (find_similar_posts substring_ratio first_seen sample_engine "pandas" 60)
         (find_relevant_content substring_ratio first_seen sample_engine "pandas" 50))
      "**Using pandas**" = true.
Proof.
  set (relevant_content :=
         find_relevant_content substring_ratio first_seen sample_engine "pandas" 50).
  set (similar_posts :=
         find_similar_posts substring_ratio first_seen sample_engine "pandas" 60).
  assert (cm_content <$> take 2 relevant_content = [pandas_item]) as Hrc
    by (by vm_compute).
  split; [exact Hrc|].
  destruct (take 2 relevant_content) as [|item rest] eqn:Htake; [done|].
  injection Hrc as Hitem _.
  destruct (answer_mentions_top_results "pandas" similar_posts relevant_content)
    as [Hc _].
  destruct (Hc item ltac:(rewrite Htake; left)) as [Ht _].
  by rewrite Hitem in Ht.
Defined.

(** ** White space around the question *)

Lemma space_not_word c : is_space c = true → is_word c = false.
Proof.
  revert c. apply (all_ascii (λ c, is_space c = true → is_word c = false)).
  intros n Hn.
  assert (forallb (λ n, implb (is_space (ascii_of_nat n))
                          (negb (is_word (ascii_of_nat n)))) (seq 0 256) = true)
    as H by (by vm_compute).
  rewrite forallb_forall in H. specialize (H n ltac:(apply in_seq; lia)).
  intros Hs. rewrite Hs in H. by destruct (is_word _).
Qed.

Lemma tidy_true_lstrip s : tidy true s = true → lstrip s = s.
Proof.
  destruct s as [|c s]; [done|]. simpl.
  destruct (is_space c); [|done]. by rewrite andb_false_r.
Qed.

Lemma lstrip_sub_spaces_from b s :
  lstrip (sub_spaces_from b s) = sub_spaces_from true s.
Proof.
  destruct b; [apply tidy_true_lstrip, tidy_sub_spaces_from|].
  destruct s as [|c s]; [done|]. simpl.
  destruct (is_space c) eqn:Hc; simpl; [|by rewrite Hc].
  apply tidy_true_lstrip, tidy_sub_spaces_from.
Qed.

Lemma sub_spaces_from_true_lstrip s :
  sub_spaces_from true (lstrip s) = sub_spaces_from true s.
Proof.
  induction s as [|c s IH]; [done|]. simpl.
  destruct (is_space c) eqn:Hc; [done|]. simpl. by rewrite Hc.
Qed.

Lemma rstrip_cons_eq c s1 s2 :
  rstrip s1 = rstrip s2 → rstrip (String c s1) = rstrip (String c s2).
Proof. simpl. by intros ->. Qed.

Lemma rstrip_sub_spaces_from b s :
  rstrip (sub_spaces_from b (rstrip s)) = rstrip (sub_spaces_from b s).
Proof.
  revert b. induction s as [|c s IH]; intros b; [done|].
  cbn [rstrip]. destruct (rstrip s) as [|d r] eqn:Hr.
  - apply rstrip_empty_inv in Hr.
    destruct (is_space c) eqn:Hc.
    + symmetry. apply rstrip_all_space, all_space_sub_spaces_from.
      simpl. by rewrite Hc, Hr.
    + cbn [sub_spaces_from]. rewrite Hc. cbn [rstrip].
      by rewrite (rstrip_all_space _ (all_space_sub_spaces_from false s Hr)).
  - remember (String d r) as t eqn:Ht. clear Ht Hr.
    cbn [sub_spaces_from]. destruct (is_space c), b;
      try apply rstrip_cons_eq; apply IH.
Qed.

Lemma rstrip_lstrip_comm s : rstrip (lstrip s) = lstrip (rstrip s).
Proof.
  induction s as [|c s IH]; [done|]. cbn [lstrip rstrip].
  destruct (is_space c) eqn:Hc.
  - rewrite IH. destruct (rstrip s) as [|d r]; [done|].
    cbn [lstrip]. by rewrite Hc.
  - cbn [rstrip]. destruct (rstrip s) as [|d r]; rewrite ?Hc; cbn [lstrip];
      by rewrite Hc.
Qed.

Lemma strip_sub_spaces_strip s :
  strip (sub_spaces (strip s)) = strip (sub_spaces s).
Proof.
  unfold strip, sub_spaces.
  rewrite <- (rstrip_lstrip_comm (sub_spaces_from false (lstrip (rstrip s)))).
  rewrite lstrip_sub_spaces_from, sub_spaces_from_true_lstrip.
  rewrite <- (lstrip_sub_spaces_from false (rstrip s)).
  rewrite rstrip_lstrip_comm, rstrip_sub_spaces_from. done.
Qed.

Lemma preprocess_text_strip s : preprocess_text (strip s) = preprocess_text s.
Proof.
  rewrite !preprocess_text_unfold.
  by rewrite lower_strip, strip_sub_spaces_strip.
Qed.

Lemma word_runs_from_all_space cur s :
  all_space s = true →
  word_runs_from cur s = if truthy cur then [cur] else [].
Proof.
  revert cur. induction s as [|c s IH]; intros cur; [done|]. simpl.
  intros [Hc Hs]%andb_prop. rewrite (space_not_word c Hc), (IH EmptyString Hs).
  simpl. by rewrite app_nil_r.
Qed.

Lemma word_runs_from_lstrip s :
  word_runs_from EmptyString (lstrip s) = word_runs_from EmptyString s.
Proof.
  induction s as [|c s IH]; [done|]. cbn [lstrip].
  destruct (is_space c) eqn:Hc; [|done].
  cbn [word_runs_from]. by rewrite (space_not_word c Hc).
Qed.

Lemma word_runs_from_rstrip cur s :
  word_runs_from cur (rstrip s) = word_runs_from cur s.
Proof.
  revert cur. induction s as [|c s IH]; intros cur; [done|].
  cbn [rstrip]. destruct (rstrip s) as [|d r] eqn:Hr.
  - apply rstrip_empty_inv in Hr. destruct (is_space c) eqn:Hc.
    + rewrite (word_runs_from_all_space cur (String c s)); [done|].
      simpl. by rewrite Hc, Hr.
    + cbn [word_runs_from]. destruct (is_word c).
      * by rewrite (word_runs_from_all_space _ s Hr).
      * by rewrite (word_runs_from_all_space _ s Hr).
  - cbn [word_runs_from]. destruct (is_word c); by rewrite <- !IH.
Qed.

Lemma findall_words4_strip s : findall_words4 (strip s) = findall_words4 s.
Proof.
  unfold findall_words4, word_runs, strip.
  by rewrite word_runs_from_lstrip, word_runs_from_rstrip.
Qed.

Lemma rstrip_app a b :
  rstrip (a +:+ b)
  = match rstrip b with EmptyString => rstrip a | r => a +:+ r end.
Proof.
  induction a as [|c a IH]; [rewrite app_empty_l; by destruct (rstrip b)|].
  rewrite app_cons. cbn [rstrip]. rewrite IH.
  destruct (rstrip b) as [|d r]; [done|].
  destruct a; by rewrite ?app_empty_l, ?app_cons.
Qed.

Lemma rstrip_split s : ∃ w, s = rstrip s +:+ w.
Proof.
  induction s as [|c s [w IH]]; [by exists EmptyString|].
  cbn [rstrip]. destruct (rstrip s) as [|d r].
  - destruct (is_space c); [by exists (String c s)|].
    exists w. by rewrite IH at 1.
  - exists w. by rewrite IH at 1.
Qed.

Lemma lstrip_split s : ∃ w, s = w +:+ lstrip s.
Proof.
  induction s as [|c s [w IH]]; [by exists EmptyString|].
  cbn [lstrip]. destruct (is_space c); [|by exists EmptyString].
  exists (String c w). by rewrite IH at 1.
Qed.

Lemma contains_rstrip s k :
  truthy k = true → rstrip k = k → contains (rstrip s) k = contains s k.
Proof.
  intros Hk Hrk. apply eq_true_iff_eq. split.
  - intros (a & b & E)%contains_inv. destruct (rstrip_split s) as [w Hw].
    rewrite Hw, E, !app_assoc_str. apply contains_app.
  - intros (a & b & ->)%contains_inv.
    assert (∃ b', rstrip (k +:+ b) = k +:+ b') as [b' Hb'].
    { rewrite rstrip_app, Hrk. destruct (rstrip b) as [|d r]; [|by eexists].
      exists EmptyString. by rewrite app_empty_r. }
    rewrite rstrip_app, Hb'.
    destruct (k +:+ b') as [|d r] eqn:E; [by destruct k|].
    rewrite <- E. apply contains_app.
Qed.

Lemma contains_lstrip s k c k' :
  k = String c k' → is_space c = false → contains (lstrip s) k = contains s k.
Proof.
  intros -> Hc. induction s as [|d s IH]; [done|]. cbn [lstrip].
  destruct (is_space d) eqn:Hd; [|done]. rewrite IH.
  change (contains (String d s) (String c k'))
    with (String.prefix (String c k') (String d s) || contains s (String c k')).
  simpl. destruct (ascii_dec c d) as [->|]; [congruence|done].
Qed.

Lemma keywords_found_strip text : keywords_found (strip text) = keywords_found text.
Proof.
  unfold keywords_found. rewrite lower_strip, findall_words4_strip.
  do 2 f_equal. unfold strip.
  assert (Forall (λ k, ∃ c k', k = String c k' ∧ is_space c = false ∧ rstrip k = k)
            tech_terms) as Hterms.
  { unfold tech_terms. repeat (constructor; [by eexists _, _|]). constructor. }
  induction Hterms as [|k terms (c & k' & Hk & Hc & Hr) _ IH]; [done|].
  rewrite !filter_cons, IH.
  rewrite (contains_lstrip _ k c k' Hk Hc), (contains_rstrip _ k) by (by subst k).
  done.
Qed.

(** X15: white space before and after the question does not change the
    payload of [get_answer]. *)
Theorem get_answer_ignores_outer_space partial_ratio list_set self question :
  get_answer partial_ratio list_set self (strip question)
  = get_answer partial_ratio list_set self question.
Proof.
  assert (∀ t, find_similar_posts partial_ratio list_set self (strip question) t
               = find_similar_posts partial_ratio list_set self question t) as Hposts.
  { intros t. rewrite !find_similar_posts_eq. do 3 f_equal.
    apply list_fmap_ext. intros _ r _. unfold post_entry, extract_keywords.
    by rewrite preprocess_text_strip, keywords_found_strip. }
  assert (∀ t, find_relevant_content partial_ratio list_set self (strip question) t
               = find_relevant_content partial_ratio list_set self question t) as Hitems.
  { intros t. rewrite !find_relevant_content_eq. do 3 f_equal.
    apply list_fmap_ext. intros _ r _. unfold content_entry, extract_keywords.
    by rewrite preprocess_text_strip, keywords_found_strip. }
  assert (blank (strip question) = blank question) as Hb.
  { unfold blank. rewrite strip_strip. destruct question as [|c s]; [done|].
    by destruct (truthy (strip (String c s))). }
  destruct (blank question) eqn:Hq.
  - by rewrite !get_answer_blank.
  - rewrite !get_answer_not_blank by done. by rewrite Hposts, Hitems.
Qed.

Example get_answer_ignores_outer_space_sample :
  strip ("  pandas plot " +:+ newline) = "pandas plot"
  ∧ get_answer substring_ratio first_seen sample_engine ("  pandas plot " +:+ newline)
    = get_answer substring_ratio first_seen sample_engine "pandas plot".
Proof. split; [reflexivity|]. by vm_compute. Qed.

(** X16: for a question that is not blank, the answer of the payload is the
    no-match text exactly when neither finder returned anything, and the
    payload then has no link; so a payload with a link never carries the
    no-match text. *)
Theorem no_match_iff_nothing_retrieved partial_ratio list_set self question :
  all_space question = false →
  ∃ p,
    get_answer partial_ratio list_set self question = Ok p
    ∧ (answer p = no_match_answer
       ↔ find_similar_posts partial_ratio list_set self question 60 = []
         ∧ find_relevant_content partial_ratio list_set self question 50 = [])
    ∧ (answer p = no_match_answer → links p = [])
    ∧ (links p ≠ [] → answer p ≠ no_match_answer).
Proof.
  intros Hq. eexists. split.
  { apply get_answer_not_blank. by rewrite blank_all_space. }
  cbn [answer links].
  assert (generate_answer question
            (find_similar_posts partial_ratio list_set self question 60)
            (find_relevant_content partial_ratio list_set self question 50)
          = no_match_answer →
          Spec.links_of (find_relevant_content partial_ratio list_set self question 50)
            (find_similar_posts partial_ratio list_set self question 60) = []) as Hnone.
  { intros [-> ->]%generate_answer_no_match_iff. done. }
  split; [apply generate_answer_no_match_iff|]. split; [done|].
  intros Hl Ha. by apply Hl, Hnone.
Qed.

Lemma no_match_iff_nothing_retrieved_witness :
  all_space "pandas" = false
  ∧ ∃ p, get_answer substring_ratio first_seen sample_engine "pandas" = Ok p
         ∧ links p ≠ []
         ∧ answer p ≠ no_match_answer.
Proof.
  split; [reflexivity|].
  destruct (no_match_iff_nothing_retrieved substring_ratio first_seen sample_engine
              "pandas" eq_refl) as (p & Hp & _ & _ & Hl).
  exists p. split; [exact Hp|].
  assert (links p ≠ []) as Hne.
  { rewrite get_answer_not_blank in Hp by reflexivity. injection Hp as <-.
    by vm_compute. }
  split; [exact Hne | exact (Hl Hne)].
Defined.
